(** * FileUploader: the file ingestion and delivery upload manager

    A shallow embedding of the React component [FileUploader]
    (validation, candidate queue, annotation, transfer) and the properties
    of its handlers.

    React state is a record; a handler reads the values of the render it
    was created in (its closure, here the [Render] argument) and writes
    through the setters, which act on the live state.  Everything a
    handler does to the outside (notifications, the upload request, the
    note update, the completion callback) is recorded in an effect log.
    Console output is not modelled. *)

From Stdlib Require Import List String Ascii Bool NArith ZArith Lia.
From Stdlib Require Import DecimalString Permutation.
From Stdlib Require SpecFloat.
Import ListNotations.
Local Open Scope string_scope.
Local Open Scope list_scope.

(** ** Data *)

(** The part of a browser [File] the component looks at. *)
Module File.
Record t : Type := mk { name : string; size : N; type : string }.
End File.
Abbreviation File := File.t.

(** [new File([], name)]: no content, no type. *)
Definition new_File (name : string) : File :=
  {| File.name := name; File.size := 0%N; File.type := "" |}.

Inductive UploadType := raw | edited.
Inductive UploadMethod := local | dropbox | google.

(** A JavaScript number as far as [progress] can take one. *)
Inductive Num := Fin (n : N) | PosInfinity | NaN.

Record State : Type := mkState {
  uploadType : UploadType;
  files : list File;
  uploading : bool;
  progress : Num;
  notes : string;
  notesChanged : bool;
  uploadMethod : UploadMethod
}.

(** What a thrown or returned call of caller code amounts to. *)
Inductive Completion := Returns | Throws.

Record Props : Type := mkProps {
  shootId : option string;
  onUploadComplete : option (list File -> string -> Completion);
  allowedFileTypes_prop : option (list string);
  initialNotes_prop : option string
}.

Definition default_allowedFileTypes : list string :=
  [ "image/jpeg"; "image/png"; "image/tiff";
    "video/mp4"; "video/quicktime";
    "application/zip"; "application/x-zip-compressed" ].

Definition allowedFileTypes (p : Props) : list string :=
  match allowedFileTypes_prop p with
  | Some l => l
  | None => default_allowedFileTypes
  end.

Definition initialNotes (p : Props) : string :=
  match initialNotes_prop p with
  | Some s => s
  | None => ""
  end.

(** The surroundings: [useAuth().user?.role] and
    [localStorage.getItem('authToken')] ([None] for [null], and for a read
    that throws: in [handleUpload] both end in the [catch]). *)
Record Env : Type := mkEnv {
  role : option string;
  authToken : option string
}.

(** A render: the props, the surroundings and the state its closures see. *)
Record Render : Type := mkRender {
  props : Props;
  env : Env;
  snap : State
}.

(** JavaScript truthiness of an optional string: [undefined], [null] and
    the empty string are falsy. *)
Definition truthy (o : option string) : bool :=
  match o with
  | Some s => negb (s =? "")
  | None => false
  end.

Inductive NoteField := photographerNotes | editingNotes | shootNotes.

Inductive Variant := default_variant | destructive.

Inductive Effect :=
| toast (title description : string) (variant : Variant)
| axios_post (target : option string) (bearer : string) (formData : list File)
| updateShoot (target : string) (field : NoteField) (text : string)
| call_onUploadComplete (sent : list File) (text : string).

(** ** Handlers: state passing with an effect log *)

Definition Handler (A : Type) : Type := State -> A * State * list Effect.

Definition ret {A} (a : A) : Handler A := fun s => (a, s, []).

Definition bind {A B} (m : Handler A) (k : A -> Handler B) : Handler B :=
  fun s =>
    let '(a, s1, e1) := m s in
    let '(b, s2, e2) := k a s1 in
    (b, s2, e1 ++ e2).

Notation "x <- m ;; k" := (bind m (fun x => k))
  (at level 61, m at next level, right associativity).
Notation "m ;; k" := (bind m (fun _ => k))
  (at level 61, right associativity).

Definition emit (e : Effect) : Handler unit := fun s => (tt, s, [e]).

Definition when (b : bool) (m : Handler unit) : Handler unit :=
  if b then m else ret tt.

Definition result_of {A} (r : A * State * list Effect) : A := fst (fst r).
Definition state_of {A} (r : A * State * list Effect) : State := snd (fst r).
Definition effects_of {A} (r : A * State * list Effect) : list Effect := snd r.

(** The setters of [useState]. *)
Definition setUploadType (v : UploadType) : Handler unit := fun s =>
  (tt, mkState v (files s) (uploading s) (progress s) (notes s)
         (notesChanged s) (uploadMethod s), []).
Definition setFiles (f : list File -> list File) : Handler unit := fun s =>
  (tt, mkState (uploadType s) (f (files s)) (uploading s) (progress s) (notes s)
         (notesChanged s) (uploadMethod s), []).
Definition setUploading (v : bool) : Handler unit := fun s =>
  (tt, mkState (uploadType s) (files s) v (progress s) (notes s)
         (notesChanged s) (uploadMethod s), []).
Definition setProgress (v : Num) : Handler unit := fun s =>
  (tt, mkState (uploadType s) (files s) (uploading s) v (notes s)
         (notesChanged s) (uploadMethod s), []).
Definition setNotes (v : string) : Handler unit := fun s =>
  (tt, mkState (uploadType s) (files s) (uploading s) (progress s) v
         (notesChanged s) (uploadMethod s), []).
Definition setNotesChanged (v : bool) : Handler unit := fun s =>
  (tt, mkState (uploadType s) (files s) (uploading s) (progress s) (notes s)
         v (uploadMethod s), []).
Definition setUploadMethod (v : UploadMethod) : Handler unit := fun s =>
  (tt, mkState (uploadType s) (files s) (uploading s) (progress s) (notes s)
         (notesChanged s) v, []).

(** The state of the first render: [useState] initial values. *)
Definition initialUploadType (e : Env) : UploadType :=
  match role e with
  | Some r => if r =? "editor" then edited else raw
  | None => raw
  end.

Definition initial_state (p : Props) (e : Env) : State :=
  {| uploadType := initialUploadType e;
     files := [];
     uploading := false;
     progress := Fin 0;
     notes := initialNotes p;
     notesChanged := false;
     uploadMethod := local |}.

(** ** Validation *)

Record Invalid : Type := mkInvalid { file : File; reason : string }.

Definition includes (l : list string) (x : string) : bool :=
  existsb (String.eqb x) l.

Definition size_limit : N := 100 * 1024 * 1024.

(** The body of the [forEach] in [validateFiles], on the two arrays it
    pushes to. *)
Definition validate_one (allowed : list string)
    (acc : list File * list Invalid) (f : File) : list File * list Invalid :=
  let '(validFiles, invalidFiles) := acc in
  if negb (includes allowed (File.type f)) then
    (validFiles, invalidFiles ++ [mkInvalid f "File type not supported"])
  else if (size_limit <? File.size f)%N then
    (validFiles, invalidFiles ++ [mkInvalid f "File exceeds 100MB size limit"])
  else
    (validFiles ++ [f], invalidFiles).

Definition validate_loop (allowed : list string) (fileList : list File)
  : list File * list Invalid :=
  fold_left (validate_one allowed) fileList ([], []).

Definition nat_to_string (n : nat) : string :=
  NilZero.string_of_uint (Nat.to_uint n).

Definition describe (i : Invalid) : string :=
  File.name (file i) ++ ": " ++ reason i.

Definition validateFiles (r : Render) (fileList : list File)
  : Handler (list File) :=
  let '(validFiles, invalidFiles) :=
    validate_loop (allowedFileTypes (props r)) fileList in
  when (0 <? List.length invalidFiles)%nat
    (emit (toast (nat_to_string (List.length invalidFiles)
                    ++ " file(s) couldn't be added")
                 (String.concat ", " (map describe invalidFiles))
                 destructive)) ;;
  ret validFiles.

(** ** Candidate queue *)

(** [[...prev, ...validFiles]] after validation; an empty selection returns
    before validating. *)
Definition add_validated (r : Render) (fileList : list File) : Handler unit :=
  match fileList with
  | [] => ret tt
  | _ =>
      validFiles <- validateFiles r fileList ;;
      setFiles (fun prev => prev ++ validFiles)
  end.

Definition handleFileInputChange (r : Render) (target_files : list File)
  : Handler unit :=
  add_validated r target_files.

Definition handleDrop (r : Render) (dataTransfer_files : list File)
  : Handler unit :=
  add_validated r dataTransfer_files.

(** The "+" button of a remote listing entry:
    [setFiles([...files, new File([], name)])], on the [files] of the
    render. *)
Definition add_remote (r : Render) (name : string) : Handler unit :=
  setFiles (fun _ => files (snap r) ++ [new_File name]).

Definition dropbox_listing : list string :=
  [ "client_project_photo.jpg"; "property_tour.mov"; "listings_package.zip" ].

Definition google_listing : list string :=
  [ "real_estate_front.jpg"; "real_estate_kitchen.jpg";
    "property_walkthrough.mp4" ].

(** The "Select All" button of both remote listings: [setFiles([])]. *)
Definition select_all : Handler unit := setFiles (fun _ => []).

(** [Array.prototype.filter] with the index passed to the callback. *)
Fixpoint filter_from {A} (p : A -> Z -> bool) (i : Z) (l : list A) : list A :=
  match l with
  | [] => []
  | x :: t =>
      if p x i then x :: filter_from p (i + 1) t else filter_from p (i + 1) t
  end.

Definition js_filter {A} (p : A -> Z -> bool) (l : list A) : list A :=
  filter_from p 0 l.

Definition handleRemoveFile (index : Z) : Handler unit :=
  setFiles (js_filter (fun _ i => negb (i =? index)%Z)).

Definition handleClearFiles : Handler unit := setFiles (fun _ => []).

Definition connectDropbox : Handler unit :=
  emit (toast "Connecting to Dropbox"
              "Redirecting to Dropbox authorization..." default_variant) ;;
  setUploadMethod dropbox.

Definition connectGoogleDrive : Handler unit :=
  emit (toast "Connecting to Google Drive"
              "Redirecting to Google authorization..." default_variant) ;;
  setUploadMethod google.

(** The callbacks of the two [setTimeout(..., 2000)]. *)
Definition dropbox_connected : Handler unit :=
  emit (toast "Dropbox Connected"
          "Successfully connected to Dropbox. You can now select files."
          default_variant).

Definition google_connected : Handler unit :=
  emit (toast "Google Drive Connected"
          "Successfully connected to Google Drive. You can now select files."
          default_variant).

(** ** Annotation *)

(** The effect on [initialNotes]; the parameter default makes
    [initialNotes !== undefined] hold always. *)
Definition initialNotes_effect (r : Render) : Handler unit :=
  when (negb (initialNotes (props r) =? notes (snap r))
        && negb (notesChanged (snap r)))
    (setNotes (initialNotes (props r))).

Definition handleNotesChange (value : string) : Handler unit :=
  setNotes value ;;
  setNotesChanged true.

Definition role_is (e : Env) (r : string) : bool :=
  match role e with
  | Some x => x =? r
  | None => false
  end.

(** The field [notesUpdate] carries, by the chain of tests on [user?.role]. *)
Definition notesUpdate (e : Env) (ut : UploadType) : NoteField :=
  if role_is e "photographer" then photographerNotes
  else if role_is e "editor" then editingNotes
  else if role_is e "admin" || role_is e "superadmin" then
    match ut with
    | raw => photographerNotes
    | edited => editingNotes
    end
  else shootNotes.

(** How an awaited request ends. *)
Inductive TransportError := NetworkFailure | StatusCode (code : N).
Inductive Settled := Fulfilled | Rejected (e : TransportError).

(** [handleSaveNotes] up to its [await]: [true] when [updateShoot] was
    called. *)
Definition handleSaveNotes_call (r : Render) : Handler bool :=
  match shootId (props r) with
  | Some id =>
      if truthy (Some id) then
        emit (updateShoot id (notesUpdate (env r) (uploadType (snap r)))
                (notes (snap r))) ;;
        ret true
      else
        emit (toast "Cannot save notes" "No shoot ID provided" destructive) ;;
        ret false
  | None =>
      emit (toast "Cannot save notes" "No shoot ID provided" destructive) ;;
      ret false
  end.

(** [handleSaveNotes] after its [await]. *)
Definition handleSaveNotes_settled (o : Settled) : Handler unit :=
  match o with
  | Fulfilled =>
      emit (toast "Notes saved"
              "Your upload notes have been saved successfully"
              default_variant) ;;
      setNotesChanged false
  | Rejected _ =>
      emit (toast "Error saving notes"
              "There was a problem saving your notes" destructive)
  end.

Definition handleSaveNotes (r : Render) (o : Settled) : Handler unit :=
  called <- handleSaveNotes_call r ;;
  if called then handleSaveNotes_settled o else ret tt.

(** ** Transfer *)

Definition upload_failed : Handler unit :=
  emit (toast "Upload Failed" "Something went wrong while uploading."
          destructive) ;;
  setUploading false.

(** [handleUpload] up to its [await]: [true] when the request was issued. *)
Definition handleUpload_begin (r : Render) : Handler bool :=
  if (List.length (files (snap r)) =? 0)%nat then
    emit (toast "No files selected" "Please select files to upload"
            destructive) ;;
    ret false
  else
    setUploading true ;;
    match authToken (env r) with
    | Some token =>
        if truthy (Some token) then
          emit (axios_post (shootId (props r)) token (files (snap r))) ;;
          ret true
        else upload_failed ;; ret false
    | None => upload_failed ;; ret false
    end.

(** JavaScript numbers are IEEE 754 binary64: the Standard Library's
    executable specification of floating-point arithmetic at precision 53
    and maximal exponent 1024, rounding to nearest, ties to even. *)
Definition double : Type := SpecFloat.spec_float.

(** The number a byte count arrives as: the double nearest to it. *)
Definition to_double (n : N) : double :=
  SpecFloat.binary_normalize 53 1024 (Z.of_N n) 0 false.

Definition number_mul (x y : double) : double := SpecFloat.SFmul 53 1024 x y.

Definition number_div (x y : double) : double := SpecFloat.SFdiv 53 1024 x y.

(** [Math.round]: the nearest integer, a half going up; [NaN] and
    [Infinity] are kept.  Byte counts carry no sign, so only magnitudes
    come in. *)
Definition Math_round (x : double) : Num :=
  match x with
  | SpecFloat.S754_nan => NaN
  | SpecFloat.S754_infinity _ => PosInfinity
  | SpecFloat.S754_zero _ => Fin 0
  | SpecFloat.S754_finite _ m e =>
      match e with
      | Zneg k => Fin ((2 * Npos m + 2 ^ Npos k) / 2 ^ (Npos k + 1))%N
      | _ => Fin (Npos m * 2 ^ Z.to_N e)%N
      end
  end.

(** [Math.round((loaded * 100) / total)]; a missing [total] is
    [undefined], and a division by [undefined] is [NaN]. *)
Definition percentCompleted (loaded : N) (total : option N) : Num :=
  match total with
  | None => NaN
  | Some t =>
      Math_round
        (number_div (number_mul (to_double loaded) (to_double 100))
           (to_double t))
  end.

Definition onUploadProgress (loaded : N) (total : option N) : Handler unit :=
  setProgress (percentCompleted loaded total).

Definition upload_done : Handler unit :=
  setUploading false ;;
  setProgress (Fin 0) ;;
  setFiles (fun _ => []) ;;
  setNotesChanged false.

(** [handleUpload] after its [await], with the [files] and [notes] of the
    render that started it. *)
Definition handleUpload_settled (r : Render) (o : Settled) : Handler unit :=
  match o with
  | Fulfilled =>
      emit (toast "Upload Complete"
              (nat_to_string (List.length (files (snap r)))
                 ++ " files uploaded successfully.")
              default_variant) ;;
      match onUploadComplete (props r) with
      | Some callback =>
          emit (call_onUploadComplete (files (snap r)) (notes (snap r))) ;;
          match callback (files (snap r)) (notes (snap r)) with
          | Returns => upload_done
          | Throws => upload_failed
          end
      | None => upload_done
      end
  | Rejected _ => upload_failed
  end.

Definition ProgressEvent : Type := N * option N.

Fixpoint progress_events (evs : list ProgressEvent) : Handler unit :=
  match evs with
  | [] => ret tt
  | (loaded, total) :: rest =>
      onUploadProgress loaded total ;; progress_events rest
  end.

(** One whole call of [handleUpload] with nothing else in between: the
    progress events the transport reports, then how the request ends. *)
Definition handleUpload (r : Render) (evs : list ProgressEvent) (o : Settled)
  : Handler unit :=
  sent <- handleUpload_begin r ;;
  if sent then progress_events evs ;; handleUpload_settled r o else ret tt.

(** ** The view: which handler the rendered page can reach *)

Definition showRawTab (e : Env) : bool :=
  role_is e "photographer" || role_is e "admin" || role_is e "superadmin".

Definition showEditedTab (e : Env) : bool :=
  role_is e "editor" || role_is e "admin" || role_is e "superadmin".

Inductive Event :=
| PickFiles (target_files : list File)
| DropFiles (dataTransfer_files : list File)
| ClickLocal
| ClickDropbox
| ClickGoogleDrive
| DropboxConnected
| GoogleDriveConnected
| ClickAddDropbox (entry : nat)
| ClickAddGoogle (entry : nat)
| ClickSelectAll
| ClickRemove (index : nat)
| ClickClearAll
| ClickCancel
| SwitchTab (v : UploadType)
| TypeNotes (value : string)
| ClickSaveNotes
| SaveSettled (o : Settled)
| ClickUpload
| UploadProgress (session : nat) (loaded : N) (total : option N)
| UploadSettled (session : nat) (o : Settled)
| NewInitialNotes (v : option string).

(** The component with its requests in flight: each upload request keeps
    the render that issued it. *)
Record World : Type := mkWorld {
  w_props : Props;
  w_env : Env;
  live : State;
  inflight : list Render;
  saves : nat;
  log : list Effect
}.

Definition render (w : World) : Render :=
  mkRender (w_props w) (w_env w) (live w).

Definition is_method (m1 m2 : UploadMethod) : bool :=
  match m1, m2 with
  | local, local | dropbox, dropbox | google, google => true
  | _, _ => false
  end.

(** Whether the page of render [r] offers the control behind an event:
    the control is in the JSX that is returned and is not [disabled].
    Events of the transport and of timers are decided in [step]. *)
Definition available (r : Render) (ev : Event) : bool :=
  let s := snap r in
  match ev with
  | PickFiles _ | DropFiles _ => is_method (uploadMethod s) local
  | ClickLocal | ClickDropbox | ClickGoogleDrive => true
  | ClickAddDropbox k =>
      is_method (uploadMethod s) dropbox
      && (k <? List.length dropbox_listing)%nat
  | ClickAddGoogle k =>
      is_method (uploadMethod s) google
      && (k <? List.length google_listing)%nat
  | ClickSelectAll =>
      is_method (uploadMethod s) dropbox || is_method (uploadMethod s) google
  | ClickRemove i =>
      (0 <? List.length (files s))%nat && (i <? List.length (files s))%nat
      && negb (uploading s)
  | ClickClearAll => (0 <? List.length (files s))%nat && negb (uploading s)
  | ClickCancel =>
      negb (uploading s) && negb (List.length (files s) =? 0)%nat
  | SwitchTab _ => showRawTab (env r) && showEditedTab (env r)
  | TypeNotes _ => negb (uploading s)
  | ClickSaveNotes => truthy (shootId (props r)) && notesChanged s
  | ClickUpload => negb (uploading s)
  | DropboxConnected | GoogleDriveConnected
  | SaveSettled _ | UploadProgress _ _ _ | UploadSettled _ _
  | NewInitialNotes _ => true
  end.

Definition exec (h : Handler unit) (w : World) : World :=
  let '(_, s, es) := h (live w) in
  mkWorld (w_props w) (w_env w) s (inflight w) (saves w) (log w ++ es).

Fixpoint remove_nth {A} (k : nat) (l : list A) : list A :=
  match l, k with
  | [], _ => []
  | _ :: t, O => t
  | x :: t, S k' => x :: remove_nth k' t
  end.

Definition step (w : World) (ev : Event) : option World :=
  if negb (available (render w) ev) then None else
  match ev with
  | PickFiles fl => Some (exec (handleFileInputChange (render w) fl) w)
  | DropFiles fl => Some (exec (handleDrop (render w) fl) w)
  | ClickLocal => Some (exec (setUploadMethod local) w)
  | ClickDropbox => Some (exec connectDropbox w)
  | ClickGoogleDrive => Some (exec connectGoogleDrive w)
  | DropboxConnected => Some (exec dropbox_connected w)
  | GoogleDriveConnected => Some (exec google_connected w)
  | ClickAddDropbox k =>
      match nth_error dropbox_listing k with
      | Some name => Some (exec (add_remote (render w) name) w)
      | None => None
      end
  | ClickAddGoogle k =>
      match nth_error google_listing k with
      | Some name => Some (exec (add_remote (render w) name) w)
      | None => None
      end
  | ClickSelectAll => Some (exec select_all w)
  | ClickRemove i => Some (exec (handleRemoveFile (Z.of_nat i)) w)
  | ClickClearAll | ClickCancel => Some (exec handleClearFiles w)
  | SwitchTab v => Some (exec (setUploadType v) w)
  | TypeNotes v => Some (exec (handleNotesChange v) w)
  | ClickSaveNotes =>
      let '(called, s, es) := handleSaveNotes_call (render w) (live w) in
      Some (mkWorld (w_props w) (w_env w) s (inflight w)
              (if called then S (saves w) else saves w) (log w ++ es))
  | SaveSettled o =>
      match saves w with
      | O => None
      | S n =>
          Some (exec (handleSaveNotes_settled o)
                  (mkWorld (w_props w) (w_env w) (live w) (inflight w) n
                     (log w)))
      end
  | ClickUpload =>
      let '(sent, s, es) := handleUpload_begin (render w) (live w) in
      Some (mkWorld (w_props w) (w_env w) s
              (if sent then inflight w ++ [render w] else inflight w)
              (saves w) (log w ++ es))
  | UploadProgress k loaded total =>
      match nth_error (inflight w) k with
      | Some _ => Some (exec (onUploadProgress loaded total) w)
      | None => None
      end
  | UploadSettled k o =>
      match nth_error (inflight w) k with
      | Some r =>
          Some (exec (handleUpload_settled r o)
                  (mkWorld (w_props w) (w_env w) (live w)
                     (remove_nth k (inflight w)) (saves w) (log w)))
      | None => None
      end
  | NewInitialNotes v =>
      let p := mkProps (shootId (w_props w)) (onUploadComplete (w_props w))
                 (allowedFileTypes_prop (w_props w)) v in
      let w' := mkWorld p (w_env w) (live w) (inflight w) (saves w) (log w) in
      if initialNotes p =? initialNotes (w_props w) then Some w'
      else Some (exec (initialNotes_effect (render w')) w')
  end.

(** The mounted component: first render, then the effect on
    [initialNotes]. *)
Definition mount (p : Props) (e : Env) : World :=
  let w := mkWorld p e (initial_state p e) [] 0 [] in
  exec (initialNotes_effect (render w)) w.

Fixpoint run (w : World) (evs : list Event) : option World :=
  match evs with
  | [] => Some w
  | ev :: rest =>
      match step w ev with
      | Some w' => run w' rest
      | None => None
      end
  end.

Inductive reachable (p : Props) (e : Env) : World -> Prop :=
| reach_mount : reachable p e (mount p e)
| reach_step w ev w' :
    reachable p e w -> step w ev = Some w' -> reachable p e w'.

(** ** Presentation: icons, labels and colours *)

(** [String.prototype.includes]: [sub] occurs somewhere in [s]. *)
Fixpoint str_includes (sub s : string) : bool :=
  prefix sub s
  || match s with
     | EmptyString => false
     | String _ rest => str_includes sub rest
     end.

Inductive Icon := ImageIcon | FilmIcon | FolderIcon | FileIcon.

Definition getFileIcon (f : File) : Icon :=
  if prefix "image/" (File.type f) then ImageIcon
  else if prefix "video/" (File.type f) then FilmIcon
  else if str_includes "zip" (File.type f) then FolderIcon
  else FileIcon.

Definition is_raw (ut : UploadType) : bool :=
  match ut with raw => true | edited => false end.

Definition getNotesPlaceholder (e : Env) (ut : UploadType) : string :=
  if role_is e "photographer" then
    "Add your notes about the shoot or specific instructions for the editor..."
  else if role_is e "editor" then
    "Add your notes about the edited files or any delivery instructions..."
  else if is_raw ut then
    "Add photographer notes or instructions for the editor..."
  else "Add editor notes or delivery instructions...".

Definition getNotesTitle (e : Env) (ut : UploadType) : string :=
  if role_is e "photographer" then "Photographer Notes"
  else if role_is e "editor" then "Editor Notes"
  else if is_raw ut then "Photographer Upload Notes"
  else "Editor Upload Notes".

Definition getNotesBackgroundColorClass (e : Env) (ut : UploadType) : string :=
  if role_is e "photographer" then "bg-blue-50/60 dark:bg-blue-900/10"
  else if role_is e "editor" then "bg-purple-50/60 dark:bg-purple-900/10"
  else if is_raw ut then "bg-blue-50/60 dark:bg-blue-900/10"
  else "bg-purple-50/60 dark:bg-purple-900/10".

Definition getNotesTextColorClass (e : Env) (ut : UploadType) : string :=
  if role_is e "photographer" then "text-blue-800 dark:text-blue-300"
  else if role_is e "editor" then "text-purple-800 dark:text-purple-300"
  else if is_raw ut then "text-blue-800 dark:text-blue-300"
  else "text-purple-800 dark:text-purple-300".

Definition getNotesBorderColorClass (e : Env) (ut : UploadType) : string :=
  if role_is e "photographer" then "border-blue-200 dark:border-blue-700"
  else if role_is e "editor" then "border-purple-200 dark:border-purple-700"
  else if is_raw ut then "border-blue-200 dark:border-blue-700"
  else "border-purple-200 dark:border-purple-700".

(** * The other components *)

(** ** Strings as JavaScript splits them *)

(** [s.split(c)] for a one-character separator: never empty, [""] for the
    empty string. *)
Fixpoint split_on (c : ascii) (s : string) : list string :=
  match s with
  | EmptyString => [""]
  | String a rest =>
      if Ascii.eqb a c then "" :: split_on c rest
      else match split_on c rest with
           | h :: t => String a h :: t
           | [] => [String a ""]
           end
  end.

(** [l.slice(-2)]. *)
Definition slice_last_two {A} (l : list A) : list A :=
  skipn (List.length l - 2) l.

Fixpoint has_char (c : ascii) (s : string) : bool :=
  match s with
  | EmptyString => false
  | String a rest => Ascii.eqb a c || has_char c rest
  end.

Definition N_to_string (n : N) : string :=
  NilZero.string_of_uint (N.to_uint n).

(** ** ShootDetailDialog: the payment link *)

Module ShootDetailDialog.

(** What the [checkoutUrl] of the body amounts to in the test and in the
    assignment: a falsy value (absent, [null], the empty string, 0,
    [false]), or a truthy one and the string the [href] setter makes of
    it. *)
Inductive Checkout := Falsy | Truthy (href : string).

(** A [checkoutUrl] that is a string. *)
Definition checkout_of_string (url : string) : Checkout :=
  if url =? "" then Falsy else Truthy url.

(** What [await response.json()] leaves of the answer: a rejected or
    [null] body (both end in the [catch]), or an object and its
    [checkoutUrl]. *)
Inductive Body := BodyUnusable | BodyData (checkoutUrl : Checkout).

Inductive FetchResult := FetchRejected | Response (ok : bool) (body : Body).

Inductive Effect :=
| fetch_create_payment_link (shoot_id : string) (bearer : option string)
| set_location_href (url : string)
| toast (title description : string) (variant : Variant).

Definition payment_error : Effect :=
  toast "Payment Error" "Could not initiate payment. Please try again."
    destructive.

(** [handlePayment] up to the [await fetch]: the new [isPaying] and the
    request. *)
Definition handlePayment_begin (shoot_id : string) (token : option string)
    (isPaying : bool) : bool * list Effect :=
  (true, [fetch_create_payment_link shoot_id token]).

(** [handlePayment] from the answer on, [finally] included.  The
    assignment [window.location.href = url] sits inside the [try]:
    [assign_href] tells whether the setter takes the string (the page
    navigates) or throws (a string that does not parse as a URL), which ends
    in the [catch]. *)
Definition handlePayment_settled (assign_href : string -> Completion)
    (res : FetchResult) (isPaying : bool) : bool * list Effect :=
  (false,
   match res with
   | FetchRejected => [payment_error]
   | Response false _ => [payment_error]
   | Response true BodyUnusable => [payment_error]
   | Response true (BodyData Falsy) => []
   | Response true (BodyData (Truthy url)) =>
       match assign_href url with
       | Returns => [set_location_href url]
       | Throws => [payment_error]
       end
   end).

(** What [localStorage.getItem('authToken')], the first statement of the
    [try], does: it throws (storage denied to the page), or gives the token
    or [null]. *)
Inductive TokenRead := ReadThrows | ReadGives (token : option string).

(** One whole call of [handlePayment]. *)
Definition handlePayment (assign_href : string -> Completion)
    (shoot_id : string) (read : TokenRead)
    (res : FetchResult) (isPaying : bool) : bool * list Effect :=
  match read with
  | ReadThrows => (false, [payment_error])
  | ReadGives token =>
      let '(paying, sent) := handlePayment_begin shoot_id token isPaying in
      let '(paying', rest) := handlePayment_settled assign_href res paying in
      (paying', sent ++ rest)
  end.

Fixpoint redirects (es : list Effect) : list string :=
  match es with
  | [] => []
  | set_location_href u :: rest => u :: redirects rest
  | _ :: rest => redirects rest
  end.

Fixpoint toasts (es : list Effect) : list Effect :=
  match es with
  | [] => []
  | toast t d v :: rest => toast t d v :: toasts rest
  | _ :: rest => toasts rest
  end.

End ShootDetailDialog.

(** ** BrandingImageUpload: one image, stored or kept locally *)

Module BrandingImageUpload.

Record State : Type := mkState { preview : option string; uploading : bool }.

Record Props : Type := mkProps {
  onChange : string -> Completion;
  initialImage : option string
}.

(** The surroundings: [user?.id], [Date.now()], the public URL the storage
    gives a path, [URL.createObjectURL] and the [pathname] of [new URL(s)]
    ([None] when the constructor throws). *)
Record Env : Type := mkEnv {
  user_id : option string;
  now : N;
  getPublicUrl : string -> string;
  createObjectURL : File -> string;
  pathname : string -> option string
}.

(** How [storage.upload] ends: stored, or failed (an [error] in the answer
    or a rejected promise, both thrown into the [catch]). *)
Inductive UploadResult := Stored | Failed.

Inductive Effect :=
| toast (title description : string) (variant : Variant)
| storage_upload (path : string) (f : File)
| storage_remove (path : string)
| call_onChange (url : string).

Definition initial_state (p : Props) : State :=
  mkState (if truthy (initialImage p) then initialImage p else None) false.

Definition max_size : N := 5 * 1024 * 1024.

Definition fileExt (name : string) : string :=
  last (split_on "." name) "".

Definition fileName (e : Env) (f : File) : string :=
  (if truthy (user_id e)
   then match user_id e with Some i => i | None => "brand" end
   else "brand")
  ++ "-" ++ N_to_string (now e) ++ "." ++ fileExt (File.name f).

Definition filePath (e : Env) (f : File) : string :=
  "branding/" ++ fileName e f.

(** The [catch] of [handleFileChange] followed by its [finally]. *)
Definition fallback (p : Props) (e : Env) (f : File)
  : State * list Effect * Completion :=
  let objectUrl := createObjectURL e f in
  match onChange p objectUrl with
  | Returns =>
      (mkState (Some objectUrl) false,
       [call_onChange objectUrl;
        toast "Cloud upload failed" "Image saved locally only" destructive],
       Returns)
  | Throws => (mkState (Some objectUrl) false, [call_onChange objectUrl], Throws)
  end.

(** One whole call of [handleFileChange], given how the storage answers:
    the last state, what was done, and whether the call returned. *)
Definition handleFileChange (p : Props) (e : Env) (target_files : list File)
    (res : UploadResult) (s : State) : State * list Effect * Completion :=
  match target_files with
  | [] => (s, [], Returns)
  | f :: _ =>
      if negb (prefix "image/" (File.type f)) then
        (s, [toast "Invalid file type" "Please upload an image file"
               destructive], Returns)
      else if (max_size <? File.size f)%N then
        (s, [toast "File too large" "Image must be less than 5MB"
               destructive], Returns)
      else
        let sent := storage_upload (filePath e f) f in
        match res with
        | Stored =>
            let publicUrl := getPublicUrl e (filePath e f) in
            match onChange p publicUrl with
            | Returns =>
                (mkState (Some publicUrl) false,
                 [sent; call_onChange publicUrl;
                  toast "Image uploaded"
                    "Your branding image has been updated" default_variant],
                 Returns)
            | Throws =>
                let '(s', es, c) := fallback p e f in
                (s', sent :: call_onChange publicUrl :: es, c)
            end
        | Failed =>
            let '(s', es, c) := fallback p e f in
            (s', sent :: es, c)
        end
  end.

(** The path [handleClearImage] asks the storage to remove, if any. *)
Definition removal_path (e : Env) (s : State) : option string :=
  match preview s with
  | Some pv =>
      if truthy (Some pv) && str_includes "supabase" pv then
        match pathname e pv with
        | Some pn =>
            Some (String.concat "/" (slice_last_two (split_on "/" pn)))
        | None => None
        end
      else None
  | None => None
  end.

Definition handleClearImage (p : Props) (e : Env) (s : State)
  : State * list Effect * Completion :=
  let removal :=
    match removal_path e s with
    | Some path => [storage_remove path]
    | None => []
    end in
  match onChange p "" with
  | Returns =>
      (mkState None (uploading s),
       removal ++ [call_onChange "";
                   toast "Image removed"
                     "Your branding image has been removed" default_variant],
       Returns)
  | Throws => (mkState None (uploading s), removal ++ [call_onChange ""], Throws)
  end.

Fixpoint changes (es : list Effect) : list string :=
  match es with
  | [] => []
  | call_onChange u :: rest => u :: changes rest
  | _ :: rest => changes rest
  end.

Fixpoint uploads (es : list Effect) : list (string * File) :=
  match es with
  | [] => []
  | storage_upload path f :: rest => (path, f) :: uploads rest
  | _ :: rest => uploads rest
  end.

Fixpoint removals (es : list Effect) : list string :=
  match es with
  | [] => []
  | storage_remove path :: rest => path :: removals rest
  | _ :: rest => removals rest
  end.

End BrandingImageUpload.

(** ** LinkClientBrandingDialog: linked clients and branding settings *)

Module LinkClientBrandingDialog.

Definition mockClients : list (string * string) :=
  [ ("1", "Acme Real Estate"); ("2", "Pacific Properties");
    ("3", "Sunset Realty"); ("4", "Metropolitan Homes") ].

Record State : Type := mkState {
  linkedClients : list string;
  selectedClient : string;
  brandingSettings : list (string * string)
}.

Definition initial_state : State :=
  mkState [] ""
    [ ("logo", ""); ("primaryColor", "#1a56db");
      ("secondaryColor", "#7e3af2"); ("fontFamily", "Inter");
      ("customDomain", "") ].

Definition handleAddClient (s : State) : State :=
  if negb (selectedClient s =? "")
     && negb (includes (linkedClients s) (selectedClient s))
  then mkState (linkedClients s ++ [selectedClient s]) "" (brandingSettings s)
  else s.

Definition handleRemoveClient (clientId : string) (s : State) : State :=
  mkState (filter (fun id => negb (id =? clientId)) (linkedClients s))
    (selectedClient s) (brandingSettings s).

(** An array index among property keys: the canonical decimal form of an
    integer below 2^32 - 1. *)
Definition array_index (key : string) : option N :=
  match NilZero.uint_of_string key with
  | Some u =>
      let n := N.of_uint u in
      if (N_to_string n =? key) && (n <? 4294967295)%N then Some n else None
  | None => None
  end.

(** The entries of an object in the order JavaScript enumerates them:
    array indices first, ascending, then the other keys in the order they
    were created. *)
Fixpoint replace_key (key value : string) (o : list (string * string))
  : list (string * string) :=
  match o with
  | [] => []
  | (k, v) :: rest =>
      if k =? key then (k, value) :: rest
      else (k, v) :: replace_key key value rest
  end.

Fixpoint insert_index (n : N) (key value : string)
    (o : list (string * string)) : list (string * string) :=
  match o with
  | [] => [(key, value)]
  | (k, v) :: rest =>
      match array_index k with
      | Some i =>
          if (i <? n)%N then (k, v) :: insert_index n key value rest
          else (key, value) :: o
      | None => (key, value) :: o
      end
  end.

(** [{ ...prev, [key]: value }]: an entry of that key keeps its place and
    takes the value; a new key goes last, unless it is an array index,
    which goes after the smaller indices and before everything else. *)
Definition set_key (key value : string) (o : list (string * string))
  : list (string * string) :=
  if includes (map fst o) key then replace_key key value o
  else match array_index key with
       | Some n => insert_index n key value o
       | None => o ++ [(key, value)]
       end.

Fixpoint get_key (key : string) (o : list (string * string)) : option string :=
  match o with
  | [] => None
  | (k, v) :: rest => if k =? key then Some v else get_key key rest
  end.

Definition handleBrandingChange (key value : string) (s : State) : State :=
  mkState (linkedClients s) (selectedClient s)
    (set_key key value (brandingSettings s)).

Inductive Effect :=
| call_onSubmit (userId : string) (linked : list string)
    (branding : list (string * string))
| call_onOpenChange (open : bool).

Definition handleSubmit (user : option string) (s : State) : list Effect :=
  match user with
  | Some userId =>
      [call_onSubmit userId (linkedClients s) (brandingSettings s);
       call_onOpenChange false]
  | None => [call_onOpenChange false]
  end.

(** The controls of the dialog that write its state. *)
Inductive Event :=
| SelectClient (value : string)
| ClickAdd
| ClickRemove (clientId : string)
| ChangeBranding (key value : string).

Definition branding_keys : list string :=
  [ "logo"; "primaryColor"; "secondaryColor"; "fontFamily"; "customDomain" ].

(** The select offers the ids of [mockClients]; "Add" is disabled without
    a selection; "Remove" stands beside a linked client; the branding
    inputs write the five keys. *)
Definition available (s : State) (ev : Event) : bool :=
  match ev with
  | SelectClient v => includes (map fst mockClients) v
  | ClickAdd => negb (selectedClient s =? "")
  | ClickRemove id => includes (linkedClients s) id
  | ChangeBranding k _ => includes branding_keys k
  end.

Definition step (s : State) (ev : Event) : option State :=
  if negb (available s ev) then None else
  match ev with
  | SelectClient v =>
      Some (mkState (linkedClients s) v (brandingSettings s))
  | ClickAdd => Some (handleAddClient s)
  | ClickRemove id => Some (handleRemoveClient id s)
  | ChangeBranding k v => Some (handleBrandingChange k v s)
  end.

Inductive reachable : State -> Prop :=
| reach_initial : reachable initial_state
| reach_step s ev s' : reachable s -> step s ev = Some s' -> reachable s'.

End LinkClientBrandingDialog.

(** * Vocabulary of the statements *)

(** The policy in force: type in the allow-list and size within the limit. *)
Definition accepted (allowed : list string) (f : File) : bool :=
  includes allowed (File.type f) && (File.size f <=? size_limit)%N.

Definition rejection (allowed : list string) (f : File) : Invalid :=
  mkInvalid f
    (if includes allowed (File.type f) then "File exceeds 100MB size limit"
     else "File type not supported").

Definition in_bounds (index : Z) (l : list File) : Prop :=
  (0 <= index < Z.of_nat (List.length l))%Z.

Definition privileged (e : Env) : Prop :=
  role e = Some "admin" \/ role e = Some "superadmin".

Definition other_role (e : Env) : Prop :=
  role e <> Some "photographer" /\ role e <> Some "editor"
  /\ role e <> Some "admin" /\ role e <> Some "superadmin".

(** Whether the completion callback, when the caller gave one, returns on
    the arguments [handleUpload] passes it. *)
Definition callback_returns (r : Render) : Prop :=
  forall callback, onUploadComplete (props r) = Some callback ->
    callback (files (snap r)) (notes (snap r)) = Returns.

(** A number whose sign bit is clear. *)
Definition unsigned (x : double) : Prop :=
  match x with
  | SpecFloat.S754_zero sx | SpecFloat.S754_infinity sx
  | SpecFloat.S754_finite sx _ _ => sx = false
  | SpecFloat.S754_nan => True
  end.

Definition last_progress (evs : list ProgressEvent) (p0 : Num) : Num :=
  fold_left (fun _ ev => percentCompleted (fst ev) (snd ev)) evs p0.

(** The calls of the completion callback in an effect log. *)
Fixpoint callbacks (es : list Effect) : list (list File * string) :=
  match es with
  | [] => []
  | call_onUploadComplete sent text :: rest => (sent, text) :: callbacks rest
  | _ :: rest => callbacks rest
  end.

Fixpoint requests (es : list Effect) : list (list File) :=
  match es with
  | [] => []
  | axios_post _ _ formData :: rest => formData :: requests rest
  | _ :: rest => requests rest
  end.

(** The ways an attempt fails: no credential stored, the network, a
    response outside 2xx. *)
Inductive failed_attempt (r : Render) : Settled -> Prop :=
| missing_credential o :
    truthy (authToken (env r)) = false -> failed_attempt r o
| network_failure : failed_attempt r (Rejected NetworkFailure)
| bad_status code :
    ~ (200 <= code < 300)%N -> failed_attempt r (Rejected (StatusCode code)).

(** The busy flag tells whether a request is in flight, and there is at
    most one. *)
Definition busy_inv (w : World) : Prop :=
  match inflight w with
  | [] => uploading (live w) = false
  | [_] => uploading (live w) = true
  | _ :: _ :: _ => False
  end.

Definition keeps_uploading (h : Handler unit) : Prop :=
  forall s, uploading (state_of (h s)) = uploading s.

Ltac keeps_cases :=
  cbv [state_of fst snd];
  repeat match goal with
         | |- context [if ?b then _ else _] => destruct b
         | |- context [match ?o with Fulfilled => _ | Rejected _ => _ end] =>
             destruct o
         end; reflexivity.

Ltac keeps := let s := fresh "s" in intros s; keeps_cases.

Definition front_jpg : File := File.mk "front.jpg" 2097152 "image/jpeg".

Definition photographer_props : Props := mkProps (Some "42") None None None.

Definition photographer_env : Env :=
  mkEnv (Some "photographer") (Some "token").

(** The render of a component that is uploading one file, at 57 percent. *)
Definition busy_render : Render :=
  mkRender photographer_props photographer_env
    (mkState raw [front_jpg] true (Fin 57) "" false local).

(** The events of a first upload that stops at 57 percent and fails, and of
    the start of the next one. *)
Definition failed_then_retry : list Event :=
  [ PickFiles [front_jpg];
    ClickUpload;
    UploadProgress 0 57 (Some 100%N);
    UploadSettled 0 (Rejected NetworkFailure);
    ClickUpload ].

(** The annotation speaks for the photographer (blue) rather than for the
    editor (purple). *)
Definition blue_side (e : Env) (ut : UploadType) : bool :=
  role_is e "photographer" || (negb (role_is e "editor") && is_raw ut).

(** The events whose handlers write the queue. *)
Definition queue_event (ev : Event) : bool :=
  match ev with
  | PickFiles _ | DropFiles _ | ClickAddDropbox _ | ClickAddGoogle _
  | ClickSelectAll | ClickRemove _ | ClickClearAll | ClickCancel
  | UploadSettled _ _ => true
  | _ => false
  end.

(** The "+" buttons of the remote listings. *)
Definition remote_add (ev : Event) : bool :=
  match ev with
  | ClickAddDropbox _ | ClickAddGoogle _ => true
  | _ => false
  end.

Definition policy_ok (p : Props) (f : File) : Prop :=
  accepted (allowedFileTypes p) f = true.

(** The dialog's wiring of the logo upload:
    [onChange={(url) => handleBrandingChange("logo", url)}], applied to each
    URL the upload hands over. *)
Definition set_logo_each (urls : list string)
    (d : LinkClientBrandingDialog.State) : LinkClientBrandingDialog.State :=
  fold_left (fun d' url => LinkClientBrandingDialog.handleBrandingChange
                             "logo" url d') urls d.

(** * Properties *)

(** ** The validator *)

Lemma validate_one_cases allowed v i f :
  validate_one allowed (v, i) f =
  if accepted allowed f then (v ++ [f], i)
  else (v, i ++ [rejection allowed f]).
Proof.
  unfold validate_one, accepted, rejection.
  destruct (includes allowed (File.type f)); simpl; [|reflexivity].
  rewrite N.ltb_antisym.
  destruct (File.size f <=? size_limit)%N; reflexivity.
Qed.

Lemma validate_fold allowed l : forall v i,
  fold_left (validate_one allowed) l (v, i) =
  (v ++ filter (accepted allowed) l,
   i ++ map (rejection allowed)
          (filter (fun f => negb (accepted allowed f)) l)).
Proof.
  induction l as [|f l IH]; intros v i; cbn [fold_left filter map].
  - now rewrite !app_nil_r.
  - rewrite validate_one_cases.
    destruct (accepted allowed f); cbn [negb map]; rewrite IH, <- app_assoc;
      reflexivity.
Qed.

Lemma validate_loop_spec allowed l :
  validate_loop allowed l =
  (filter (accepted allowed) l,
   map (rejection allowed) (filter (fun f => negb (accepted allowed f)) l)).
Proof. unfold validate_loop. now rewrite validate_fold. Qed.

Lemma validateFiles_result r l s :
  result_of (validateFiles r l s) = fst (validate_loop (allowedFileTypes (props r)) l).
Proof.
  unfold validateFiles.
  destruct (validate_loop _ l) as [v i].
  destruct (0 <? List.length i)%nat; reflexivity.
Qed.

Lemma validateFiles_state r l s : state_of (validateFiles r l s) = s.
Proof.
  unfold validateFiles.
  destruct (validate_loop _ l) as [v i].
  destruct (0 <? List.length i)%nat; reflexivity.
Qed.

Lemma filter_split_perm {A} (p : A -> bool) (l : list A) :
  Permutation l (filter p l ++ filter (fun x => negb (p x)) l).
Proof.
  induction l as [|x l IH]; simpl; [constructor|].
  destruct (p x); simpl.
  - now constructor.
  - now apply Permutation_cons_app.
Qed.

Lemma validateFiles_effects r l s :
  effects_of (validateFiles r l s) =
  match snd (validate_loop (allowedFileTypes (props r)) l) with
  | [] => []
  | invalidFiles =>
      [toast (nat_to_string (List.length invalidFiles)
                ++ " file(s) couldn't be added")
             (String.concat ", " (map describe invalidFiles)) destructive]
  end.
Proof.
  unfold validateFiles.
  destruct (validate_loop _ l) as [v [|i t]]; reflexivity.
Qed.

(** C6: [validateFiles] leaves the component state as it found it and
    splits its input in two: the files it returns are the input files whose
    type is in the allowed list and whose size is within the limit, in
    their input order; all other files are listed as invalid, one entry
    each, with the reason "File type not supported" when the type is not
    allowed and "File exceeds 100MB size limit" when the type is allowed but
    the size is over the limit; no file has entries with two reasons.  The
    only effect is the one notification that lists the invalid entries,
    when there are any. *)
Theorem validateFiles_partition (r : Render) (fileList : list File) (s : State) :
  let allowed := allowedFileTypes (props r) in
  let validFiles := fst (validate_loop allowed fileList) in
  let invalidFiles := snd (validate_loop allowed fileList) in
  state_of (validateFiles r fileList s) = s
  /\ result_of (validateFiles r fileList s) = validFiles
  /\ validFiles = filter (accepted allowed) fileList
  /\ map file invalidFiles
     = filter (fun f => negb (accepted allowed f)) fileList
  /\ Permutation fileList (validFiles ++ map file invalidFiles)
  /\ (forall i, In i invalidFiles ->
        (includes allowed (File.type (file i)) = false /\
         reason i = "File type not supported")
        \/ (includes allowed (File.type (file i)) = true /\
            (size_limit < File.size (file i))%N /\
            reason i = "File exceeds 100MB size limit"))
  /\ (forall i j, In i invalidFiles -> In j invalidFiles ->
        file i = file j -> reason i = reason j)
  /\ effects_of (validateFiles r fileList s)
     = match invalidFiles with
       | [] => []
       | _ => [toast (nat_to_string (List.length invalidFiles)
                        ++ " file(s) couldn't be added")
                 (String.concat ", " (map describe invalidFiles)) destructive]
       end.
Proof.
  intros allowed validFiles invalidFiles.
  subst validFiles invalidFiles.
  rewrite validateFiles_state, validateFiles_result, validateFiles_effects.
  fold allowed.
  split; [reflexivity|]. split; [reflexivity|].
  rewrite validate_loop_spec. simpl.
  assert (Hfile : forall l, map file (map (rejection allowed) l) = l).
  { intros l. rewrite map_map. simpl. apply map_id. }
  split; [reflexivity|]. split; [apply Hfile|].
  split; [rewrite Hfile; apply filter_split_perm|].
  split; [|split;
    [|destruct (map (rejection allowed)
                  (filter (fun f => negb (accepted allowed f)) fileList));
      reflexivity]].
  - intros i Hi. apply in_map_iff in Hi. destruct Hi as [f [<- Hf]].
    apply filter_In in Hf. destruct Hf as [_ Hf].
    unfold accepted in Hf. unfold rejection. simpl.
    destruct (includes allowed (File.type f)); simpl in *.
    + right. repeat split.
      apply negb_true_iff, N.leb_gt in Hf. exact Hf.
    + left. split; reflexivity.
  - intros i j Hi Hj Heq.
    apply in_map_iff in Hi. destruct Hi as [f [<- _]].
    apply in_map_iff in Hj. destruct Hj as [g [<- _]].
    simpl in Heq. subst g. reflexivity.
Qed.

Lemma validateFiles_partition_witness :
  let pdf := File.mk "plan.pdf" 10 "application/pdf" in
  let jpeg := File.mk "front.jpg" 2097152 "image/jpeg" in
  let mp4 := File.mk "tour.mp4" 157286400 "video/mp4" in
  let s := initial_state photographer_props photographer_env in
  let r := mkRender photographer_props photographer_env s in
  result_of (validateFiles r [pdf; jpeg; mp4] s) = [jpeg]
  /\ state_of (validateFiles r [pdf; jpeg; mp4] s) = s
  /\ snd (validate_loop (allowedFileTypes (props r)) [pdf; jpeg; mp4])
     = [ mkInvalid pdf "File type not supported";
         mkInvalid mp4 "File exceeds 100MB size limit" ].
Proof.
  intros pdf jpeg mp4 s r.
  pose proof (validateFiles_partition r [pdf; jpeg; mp4] s) as H.
  cbv zeta in H. destruct H as (Hs & Hr & _).
  split; [rewrite Hr; reflexivity|]. split; [exact Hs | reflexivity].
Defined.

(** ** Removing one file of the queue *)

Lemma filter_from_out_of_range {A} (index : Z) (l : list A) : forall k : Z,
  (index < k \/ k + Z.of_nat (List.length l) <= index)%Z ->
  filter_from (fun _ i => negb (i =? index)%Z) k l = l.
Proof.
  induction l as [|x l IH]; intros k Hk; cbn [filter_from]; [reflexivity|].
  cbn [List.length] in Hk.
  destruct (Z.eqb_spec k index) as [->|Hne]; [lia|].
  cbn [negb]. f_equal. apply IH. lia.
Qed.

Lemma filter_from_in_range {A} (index : Z) (l : list A) : forall k : Z,
  (k <= index < k + Z.of_nat (List.length l))%Z ->
  filter_from (fun _ i => negb (i =? index)%Z) k l =
  firstn (Z.to_nat (index - k)) l ++ skipn (S (Z.to_nat (index - k))) l.
Proof.
  induction l as [|x l IH]; intros k Hk; cbn [List.length] in Hk; [lia|].
  cbn [filter_from].
  destruct (Z.eqb_spec k index) as [->|Hne]; cbn [negb].
  - rewrite Z.sub_diag. cbn [Z.to_nat firstn skipn app].
    apply filter_from_out_of_range. lia.
  - rewrite IH by lia.
    replace (Z.to_nat (index - k)) with (S (Z.to_nat (index - (k + 1)))) by lia.
    reflexivity.
Qed.

(** C9: [handleRemoveFile] returns for every queue and every integer
    index, with no notification or request; it touches no other field of
    the state; with the index in bounds the queue loses the element at that
    position and keeps the others in their order; with the index out of
    bounds the state is the one before. *)
Theorem handleRemoveFile_total (index : Z) (s : State) :
  effects_of (handleRemoveFile index s) = []
  /\ (let s' := state_of (handleRemoveFile index s) in
      uploadType s' = uploadType s /\ uploading s' = uploading s
      /\ progress s' = progress s /\ notes s' = notes s
      /\ notesChanged s' = notesChanged s
      /\ uploadMethod s' = uploadMethod s)
  /\ (in_bounds index (files s) ->
      files (state_of (handleRemoveFile index s)) =
        firstn (Z.to_nat index) (files s)
        ++ skipn (S (Z.to_nat index)) (files s)
      /\ List.length (files (state_of (handleRemoveFile index s)))
         = pred (List.length (files s)))
  /\ (~ in_bounds index (files s) ->
      state_of (handleRemoveFile index s) = s).
Proof.
  unfold in_bounds.
  split; [reflexivity|]. split; [repeat split|]. split.
  - intros Hin. cbn. unfold js_filter.
    rewrite filter_from_in_range by lia. rewrite Z.sub_0_r.
    split; [reflexivity|].
    rewrite length_app, length_firstn, length_skipn. lia.
  - intros Hout. destruct s as [ut fs up pr nt nc um]. cbn in *.
    unfold js_filter. rewrite filter_from_out_of_range by lia. reflexivity.
Qed.

Lemma handleRemoveFile_total_witness :
  let a := new_File "a" in
  let b := new_File "b" in
  let c := new_File "c" in
  let s := mkState raw [a; b; c] false (Fin 0) "" false local in
  files (state_of (handleRemoveFile 1 s)) = [a; c]
  /\ state_of (handleRemoveFile 3 s) = s
  /\ state_of (handleRemoveFile (-1) s) = s.
Proof.
  intros a b c s.
  pose proof (handleRemoveFile_total 1 s) as [_ [_ [H1 _]]].
  pose proof (handleRemoveFile_total 3 s) as [_ [_ [_ H3]]].
  pose proof (handleRemoveFile_total (-1) s) as [_ [_ [_ Hm]]].
  split; [|split].
  - apply H1. unfold in_bounds. cbn. lia.
  - apply H3. unfold in_bounds. cbn. lia.
  - apply Hm. unfold in_bounds. cbn. lia.
Defined.

(** ** The destination of an independent note save *)

Lemma role_is_true e x : role_is e x = true <-> role e = Some x.
Proof.
  unfold role_is. destruct (role e) as [y|]; [|split; discriminate].
  rewrite String.eqb_eq. split; congruence.
Qed.

Lemma role_is_false e x : role_is e x = false <-> role e <> Some x.
Proof.
  rewrite <- role_is_true. destruct (role_is e x); split; congruence.
Qed.

Lemma notesUpdate_table (e : Env) (ut : UploadType) :
  (role e = Some "photographer" -> notesUpdate e ut = photographerNotes)
  /\ (role e = Some "editor" -> notesUpdate e ut = editingNotes)
  /\ (privileged e -> ut = raw -> notesUpdate e ut = photographerNotes)
  /\ (privileged e -> ut = edited -> notesUpdate e ut = editingNotes)
  /\ (other_role e -> notesUpdate e ut = shootNotes).
Proof.
  unfold notesUpdate, privileged, other_role.
  repeat split.
  - intros H. apply role_is_true in H. now rewrite H.
  - intros H. unfold role_is. now rewrite H.
  - intros [H|H] ->; unfold role_is; now rewrite H.
  - intros [H|H] ->; unfold role_is; now rewrite H.
  - intros (H1 & H2 & H3 & H4).
    apply role_is_false in H1, H2, H3, H4. now rewrite H1, H2, H3, H4.
Qed.

(** C7: with a shoot bound, the independent note save makes one call of
    [updateShoot], with the note text of the render under one field, and
    that field is the one of the table: photographer notes for role
    photographer, editing notes for role editor, for admin and superadmin
    photographer notes on the raw tab and editing notes on the edited tab,
    and the generic shoot notes for every other role (no user included). *)
Theorem handleSaveNotes_destination (r : Render) (id : string) (s : State) :
  shootId (props r) = Some id -> id <> "" ->
  let field := notesUpdate (env r) (uploadType (snap r)) in
  effects_of (handleSaveNotes_call r s) = [updateShoot id field (notes (snap r))]
  /\ (role (env r) = Some "photographer" -> field = photographerNotes)
  /\ (role (env r) = Some "editor" -> field = editingNotes)
  /\ (privileged (env r) -> uploadType (snap r) = raw ->
      field = photographerNotes)
  /\ (privileged (env r) -> uploadType (snap r) = edited ->
      field = editingNotes)
  /\ (other_role (env r) -> field = shootNotes).
Proof.
  intros Hid Hne field. split; [|apply notesUpdate_table].
  unfold handleSaveNotes_call. rewrite Hid. cbn [truthy].
  apply String.eqb_neq in Hne. rewrite Hne. reflexivity.
Qed.

Lemma handleSaveNotes_destination_witness :
  let r := mkRender (mkProps (Some "42") None None None)
             (mkEnv (Some "admin") None)
             (mkState edited [] false (Fin 0) "hello" true local) in
  effects_of (handleSaveNotes_call r (snap r))
  = [updateShoot "42" editingNotes "hello"].
Proof.
  intros r.
  destruct (handleSaveNotes_destination r "42" (snap r))
    as [Heff _]; [reflexivity | discriminate |].
  exact Heff.
Defined.

(** ** The dirty flag of the annotation *)

Lemma handleSaveNotes_settled_flag (o : Settled) (s : State) :
  notesChanged (state_of (handleSaveNotes_settled o s)) =
  match o with Fulfilled => false | Rejected _ => notesChanged s end.
Proof. destruct o; reflexivity. Qed.

Lemma handleSaveNotes_call_state (r : Render) (s : State) :
  state_of (handleSaveNotes_call r s) = s.
Proof.
  unfold handleSaveNotes_call.
  destruct (shootId (props r)) as [id|]; [|reflexivity].
  destruct (truthy (Some id)); reflexivity.
Qed.

Lemma handleSaveNotes_call_result (r : Render) (s : State) :
  result_of (handleSaveNotes_call r s) = truthy (shootId (props r)).
Proof.
  unfold handleSaveNotes_call.
  destruct (shootId (props r)) as [id|]; [|reflexivity].
  destruct (truthy (Some id)); reflexivity.
Qed.

Lemma handleSaveNotes_flag (r : Render) (o : Settled) (s : State) :
  notesChanged (state_of (handleSaveNotes r o s)) =
  if truthy (shootId (props r)) then
    match o with Fulfilled => false | Rejected _ => notesChanged s end
  else notesChanged s.
Proof.
  unfold handleSaveNotes, bind.
  pose proof (handleSaveNotes_call_state r s) as Hs.
  pose proof (handleSaveNotes_call_result r s) as Hr.
  destruct (handleSaveNotes_call r s) as [[called s1] e1].
  unfold state_of, result_of in Hs, Hr. cbn in Hs, Hr. subst s1 called.
  destruct (truthy (shootId (props r))); [|reflexivity].
  destruct o; reflexivity.
Qed.

Lemma handleUpload_settled_success (r : Render) (s : State) :
  callback_returns r ->
  state_of (handleUpload_settled r Fulfilled s)
  = mkState (uploadType s) [] false (Fin 0) (notes s) false (uploadMethod s)
  /\ effects_of (handleUpload_settled r Fulfilled s)
     = toast "Upload Complete"
         (nat_to_string (List.length (files (snap r)))
            ++ " files uploaded successfully.") default_variant
       :: match onUploadComplete (props r) with
          | Some _ => [call_onUploadComplete (files (snap r)) (notes (snap r))]
          | None => []
          end.
Proof.
  intros Hcb. unfold handleUpload_settled.
  destruct (onUploadComplete (props r)) as [callback|] eqn:E.
  - specialize (Hcb callback E). unfold callback_returns in Hcb.
    cbn. rewrite Hcb. split; reflexivity.
  - split; reflexivity.
Qed.

Lemma handleUpload_settled_failure (r : Render) (e : TransportError) (s : State) :
  state_of (handleUpload_settled r (Rejected e) s)
  = mkState (uploadType s) (files s) false (progress s) (notes s)
      (notesChanged s) (uploadMethod s)
  /\ effects_of (handleUpload_settled r (Rejected e) s)
     = [toast "Upload Failed" "Something went wrong while uploading."
          destructive].
Proof. split; reflexivity. Qed.

(** C8, as the code has it: the dirty flag [notesChanged] is false in the
    first state and after the mount; the load of a new initial text leaves
    it as it is, and a load that takes place finds and leaves it false;
    every text edit sets it; a save that succeeds clears it, and so does a
    transfer that succeeds and whose completion callback, if the caller
    gave one, returns; a save that fails, or that finds no shoot bound,
    leaves it as it was. *)
Theorem notesChanged_lifecycle :
  (forall p e, notesChanged (initial_state p e) = false
               /\ notesChanged (live (mount p e)) = false)
  /\ (forall r s, notesChanged (state_of (initialNotes_effect r s))
                  = notesChanged s)
  /\ (forall r, let s' := state_of (initialNotes_effect r (snap r)) in
                notes s' <> notes (snap r) -> notesChanged s' = false)
  /\ (forall value s, notesChanged (state_of (handleNotesChange value s)) = true)
  /\ (forall r s, truthy (shootId (props r)) = true ->
                  notesChanged (state_of (handleSaveNotes r Fulfilled s)) = false)
  /\ (forall r s, callback_returns r ->
                  notesChanged (state_of (handleUpload_settled r Fulfilled s))
                  = false)
  /\ (forall r e s, notesChanged (state_of (handleSaveNotes r (Rejected e) s))
                    = notesChanged s)
  /\ (forall r o s, truthy (shootId (props r)) = false ->
                    notesChanged (state_of (handleSaveNotes r o s))
                    = notesChanged s).
Proof.
  split; [|split; [|split; [|split; [|split; [|split; [|split]]]]]].
  - intros p e. split; [reflexivity|].
    unfold mount, exec, initialNotes_effect, when. cbn.
    rewrite String.eqb_refl. reflexivity.
  - intros r s. unfold initialNotes_effect, when.
    destruct (negb (initialNotes (props r) =? notes (snap r))
              && negb (notesChanged (snap r))); reflexivity.
  - intros r. unfold initialNotes_effect, when.
    destruct (notesChanged (snap r)) eqn:E.
    + rewrite andb_false_r. cbn. congruence.
    + destruct (negb (initialNotes (props r) =? notes (snap r)) && negb false);
        cbn; [intros _; exact E | congruence].
  - reflexivity.
  - intros r s Hid. rewrite handleSaveNotes_flag, Hid. reflexivity.
  - intros r s Hcb. destruct (handleUpload_settled_success r s Hcb) as [-> _].
    reflexivity.
  - intros r e s. rewrite handleSaveNotes_flag. destruct (truthy _); reflexivity.
  - intros r o s Hid. rewrite handleSaveNotes_flag, Hid. reflexivity.
Qed.

Lemma notesChanged_lifecycle_witness :
  let p := mkProps (Some "42") None None (Some "first draft") in
  let e := mkEnv (Some "photographer") (Some "token") in
  let s0 := initial_state p e in
  let r0 := mkRender p e s0 in
  let s1 := state_of (handleNotesChange "second draft" s0) in
  let r1 := mkRender p e s1 in
  notesChanged s0 = false
  /\ notesChanged s1 = true
  /\ notesChanged (state_of (handleSaveNotes r1 (Rejected NetworkFailure) s1))
     = true
  /\ notesChanged (state_of (handleSaveNotes r1 Fulfilled s1)) = false
  /\ notesChanged (state_of (handleUpload_settled r1 Fulfilled s1)) = false.
Proof.
  intros p e s0 r0 s1 r1.
  destruct notesChanged_lifecycle
    as (Hinit & _ & _ & Hedit & Hsave & Hxfer & Hfail & _).
  split; [apply Hinit|]. split; [apply Hedit|].
  split; [rewrite Hfail; apply Hedit|].
  split; [apply Hsave; reflexivity|].
  apply Hxfer. intros callback Hc. discriminate Hc.
Defined.

(** C8 as stated fails for a transfer that succeeds while the completion
    callback throws: the request is sent and fulfilled, and the dirty flag
    is still set afterwards. *)
Lemma notesChanged_lifecycle_counterexample :
  let p := mkProps (Some "42") (Some (fun _ _ => Throws)) None None in
  let s := mkState raw [front_jpg] false (Fin 0) "second draft" true local in
  let out := handleUpload (mkRender p photographer_env s) [] Fulfilled s in
  requests (effects_of out) = [[front_jpg]]
  /\ uploading (state_of out) = false
  /\ notesChanged (state_of out) = true.
Proof. repeat split. Qed.

(** ** The effect on the initial note text *)

Lemma initialNotes_effect_cases (r : Render) (s : State) :
  initialNotes_effect r s =
  if negb (initialNotes (props r) =? notes (snap r))
     && negb (notesChanged (snap r))
  then (tt, mkState (uploadType s) (files s) (uploading s) (progress s)
              (initialNotes (props r)) (notesChanged s) (uploadMethod s), [])
  else (tt, s, []).
Proof.
  unfold initialNotes_effect, when.
  destruct (negb (initialNotes (props r) =? notes (snap r))
            && negb (notesChanged (snap r))); reflexivity.
Qed.

(** C10: when the render that runs the effect has a dirty note, the
    effect leaves the whole state, note text included, as it is, and so
    does a change of the initial text delivered to the mounted component;
    the effect changes the note text only if the note of that render is not
    dirty and the initial text differs from its note text, and in that case
    the note text becomes the initial text. *)
Theorem initialNotes_never_overwrites_dirty (r : Render) (s : State) :
  (notesChanged (snap r) = true -> state_of (initialNotes_effect r s) = s)
  /\ (notes (state_of (initialNotes_effect r s)) <> notes s ->
      notesChanged (snap r) = false
      /\ initialNotes (props r) <> notes (snap r))
  /\ (notesChanged (snap r) = false ->
      initialNotes (props r) <> notes (snap r) ->
      notes (state_of (initialNotes_effect r s)) = initialNotes (props r))
  /\ (forall w v w', notesChanged (live w) = true ->
      step w (NewInitialNotes v) = Some w' -> live w' = live w).
Proof.
  rewrite initialNotes_effect_cases.
  split; [|split; [|split]].
  - intros Hd. rewrite Hd, andb_false_r. reflexivity.
  - destruct (notesChanged (snap r)).
    + rewrite andb_false_r. cbn. congruence.
    + destruct (String.eqb_spec (initialNotes (props r)) (notes (snap r)));
        cbn; [congruence|]. intros _. split; [reflexivity | assumption].
  - intros Hd Hne. rewrite Hd. apply String.eqb_neq in Hne. rewrite Hne.
    reflexivity.
  - intros w v w' Hd Hstep. unfold step in Hstep. cbn in Hstep.
    destruct (_ =? _) in Hstep.
    + injection Hstep as <-. reflexivity.
    + injection Hstep as <-. unfold exec. rewrite initialNotes_effect_cases.
      cbn. rewrite Hd, andb_false_r. reflexivity.
Qed.

Lemma initialNotes_never_overwrites_dirty_witness :
  let p := mkProps None None None (Some "from the server") in
  let e := mkEnv (Some "editor") None in
  let dirty := mkState edited [] false (Fin 0) "typed by the user" true local in
  let clean := mkState edited [] false (Fin 0) "old text" false local in
  notes (state_of (initialNotes_effect (mkRender p e dirty) dirty))
  = "typed by the user"
  /\ notes (state_of (initialNotes_effect (mkRender p e clean) clean))
     = "from the server".
Proof.
  intros p e dirty clean.
  destruct (initialNotes_never_overwrites_dirty (mkRender p e dirty) dirty)
    as (Hkeep & _).
  destruct (initialNotes_never_overwrites_dirty (mkRender p e clean) clean)
    as (_ & _ & Hload & _).
  split.
  - rewrite Hkeep; reflexivity.
  - rewrite Hload; [reflexivity | reflexivity | discriminate].
Defined.

(** ** One upload from start to end *)

Lemma progress_events_spec (evs : list ProgressEvent) : forall s,
  progress_events evs s =
  (tt, mkState (uploadType s) (files s) (uploading s)
         (last_progress evs (progress s)) (notes s) (notesChanged s)
         (uploadMethod s), []).
Proof.
  induction evs as [|[loaded total] evs IH]; intros s.
  - destruct s; reflexivity.
  - cbn [progress_events]. unfold bind. unfold onUploadProgress at 1.
    unfold setProgress. rewrite IH. reflexivity.
Qed.

Lemma handleUpload_begin_sent (r : Render) (s : State) :
  files (snap r) <> [] -> truthy (authToken (env r)) = true ->
  exists token, authToken (env r) = Some token
  /\ handleUpload_begin r s =
     (true, mkState (uploadType s) (files s) true (progress s) (notes s)
              (notesChanged s) (uploadMethod s),
      [axios_post (shootId (props r)) token (files (snap r))]).
Proof.
  intros Hne Htok. unfold handleUpload_begin.
  destruct (files (snap r)) as [|f fs] eqn:E; [congruence|].
  destruct (authToken (env r)) as [token|]; [|discriminate].
  exists token. split; [reflexivity|]. cbn [List.length Nat.eqb].
  rewrite Htok. reflexivity.
Qed.

Lemma handleUpload_begin_no_token (r : Render) (s : State) :
  files (snap r) <> [] -> truthy (authToken (env r)) = false ->
  handleUpload_begin r s =
  (false, mkState (uploadType s) (files s) false (progress s) (notes s)
            (notesChanged s) (uploadMethod s),
   [toast "Upload Failed" "Something went wrong while uploading."
      destructive]).
Proof.
  intros Hne Htok. unfold handleUpload_begin.
  destruct (files (snap r)) as [|f fs] eqn:E; [congruence|].
  cbn [List.length Nat.eqb].
  destruct (authToken (env r)) as [token|]; [rewrite Htok|]; reflexivity.
Qed.

(** C3, as the code has it: a call of [handleUpload] in a state with a
    non-empty queue, with a stored credential, whose request is fulfilled
    and whose completion callback, if the caller gave one, returns, ends
    with the queue empty, the progress 0, the dirty flag and the uploading
    flag false and the note text kept; it sends one request, carrying the
    files of the queue as it was before the call, and calls the completion
    callback once, with those files and the note text of the render that
    started the call.  The success branch alone ends in the same way, and
    hands the callback the same files and note text, in whatever state the
    response finds the component, a note text replaced in the meantime
    included. *)
Theorem handleUpload_success (r : Render) (evs : list ProgressEvent) :
  files (snap r) <> [] ->
  truthy (authToken (env r)) = true ->
  callback_returns r ->
  let out := handleUpload r evs Fulfilled (snap r) in
  files (state_of out) = []
  /\ progress (state_of out) = Fin 0
  /\ notesChanged (state_of out) = false
  /\ uploading (state_of out) = false
  /\ notes (state_of out) = notes (snap r)
  /\ requests (effects_of out) = [files (snap r)]
  /\ callbacks (effects_of out)
     = match onUploadComplete (props r) with
       | Some _ => [(files (snap r), notes (snap r))]
       | None => []
       end
  /\ (forall s, let s' := state_of (handleUpload_settled r Fulfilled s) in
        files s' = [] /\ progress s' = Fin 0 /\ notesChanged s' = false
        /\ uploading s' = false /\ notes s' = notes s)
  /\ (forall s,
        requests (effects_of (handleUpload_settled r Fulfilled s)) = []
        /\ callbacks (effects_of (handleUpload_settled r Fulfilled s))
           = match onUploadComplete (props r) with
             | Some _ => [(files (snap r), notes (snap r))]
             | None => []
             end).
Proof.
  intros Hne Htok Hcb out. subst out.
  assert (Hcalls : forall s,
            requests (effects_of (handleUpload_settled r Fulfilled s)) = []
            /\ callbacks (effects_of (handleUpload_settled r Fulfilled s))
               = match onUploadComplete (props r) with
                 | Some _ => [(files (snap r), notes (snap r))]
                 | None => []
                 end).
  { intros s. destruct (handleUpload_settled_success r s Hcb) as [_ ->].
    destruct (onUploadComplete (props r)); split; reflexivity. }
  assert (Hany : forall s,
            let s' := state_of (handleUpload_settled r Fulfilled s) in
            files s' = [] /\ progress s' = Fin 0 /\ notesChanged s' = false
            /\ uploading s' = false /\ notes s' = notes s).
  { intros s. cbv zeta.
    destruct (handleUpload_settled_success r s Hcb) as [-> _].
    repeat split. }
  unfold handleUpload, bind.
  destruct (handleUpload_begin_sent r (snap r) Hne Htok) as (token & _ & ->).
  rewrite progress_events_spec.
  match goal with
  | |- context [handleUpload_settled r Fulfilled ?s] =>
      destruct (handleUpload_settled_success r s Hcb) as [Hs He];
      destruct (handleUpload_settled r Fulfilled s) as [[u s'] es]
  end.
  unfold state_of, effects_of in Hs, He |- *. cbn in Hs, He |- *. subst s' es.
  do 5 (split; [reflexivity|]).
  split; [|split; [|split; [exact Hany | exact Hcalls]]];
    destruct (onUploadComplete (props r)); reflexivity.
Qed.

Lemma handleUpload_success_witness :
  let photo := File.mk "front.jpg" 2097152 "image/jpeg" in
  let p := mkProps (Some "42") (Some (fun _ _ => Returns)) None None in
  let e := mkEnv (Some "photographer") (Some "token") in
  let s := mkState raw [photo] false (Fin 0) "two exposures" true local in
  let out := handleUpload (mkRender p e s) [(1024, Some 2048)]%N Fulfilled s in
  files (state_of out) = []
  /\ progress (state_of out) = Fin 0
  /\ notesChanged (state_of out) = false
  /\ callbacks (effects_of out) = [([photo], "two exposures")].
Proof.
  intros photo p e s out.
  destruct (handleUpload_success (mkRender p e s) [(1024, Some 2048)]%N)
    as (Hf & Hp & Hd & _ & _ & _ & Hc & _).
  - discriminate.
  - reflexivity.
  - intros callback Hc. injection Hc as <-. reflexivity.
  - repeat split; assumption.
Defined.

(** C3 as stated fails in two ways.  A fulfilled transfer whose completion
    callback throws ends in the failure branch: the queue, the progress and
    the dirty flag stay as they were.  And the callback receives the note
    text of the render that started the transfer, not the current one: when
    the caller replaces the initial note text while the request is in
    flight, the note box shows the new text and the callback is handed the
    old one. *)
Lemma handleUpload_success_counterexample :
  (let p := mkProps (Some "42") (Some (fun _ _ => Throws)) None None in
   let s := mkState raw [front_jpg] false (Fin 0) "two exposures" true local in
   let out := handleUpload (mkRender p photographer_env s)
                [(1024, Some 2048)]%N Fulfilled s in
   requests (effects_of out) = [[front_jpg]]
   /\ files (state_of out) = [front_jpg]
   /\ progress (state_of out) = Fin 50
   /\ notesChanged (state_of out) = true)
  /\ (let p := mkProps (Some "42") (Some (fun _ _ => Returns)) None
                 (Some "first") in
      exists w,
        run (mount p photographer_env)
          [ PickFiles [front_jpg]; ClickUpload;
            NewInitialNotes (Some "second");
            UploadSettled 0 Fulfilled ] = Some w
        /\ notes (live w) = "second"
        /\ callbacks (log w) = [([front_jpg], "first")]).
Proof.
  split.
  - vm_compute. repeat split.
  - eexists. split; [vm_compute; reflexivity|]. split; reflexivity.
Qed.

(** C4: a call of [handleUpload] in a state with a non-empty queue that
    fails (no credential, network failure or a response outside 2xx) ends
    with the queue, the note text and the dirty flag of the state it started
    in and with the uploading flag false; it notifies "Upload Failed" and
    does not call the completion callback; without a credential no request
    is sent.  The same holds of the failure branch alone in whatever state
    the rejection finds the component. *)
Theorem handleUpload_failure (r : Render) (evs : list ProgressEvent)
    (o : Settled) :
  files (snap r) <> [] ->
  failed_attempt r o ->
  let out := handleUpload r evs o (snap r) in
  files (state_of out) = files (snap r)
  /\ notes (state_of out) = notes (snap r)
  /\ notesChanged (state_of out) = notesChanged (snap r)
  /\ uploading (state_of out) = false
  /\ callbacks (effects_of out) = []
  /\ In (toast "Upload Failed" "Something went wrong while uploading."
           destructive) (effects_of out)
  /\ (truthy (authToken (env r)) = false -> requests (effects_of out) = [])
  /\ (forall e s, let s' := state_of (handleUpload_settled r (Rejected e) s) in
        files s' = files s /\ notes s' = notes s
        /\ notesChanged s' = notesChanged s /\ uploading s' = false).
Proof.
  intros Hne Hfail out. subst out. unfold handleUpload, bind.
  destruct (truthy (authToken (env r))) eqn:Htok.
  - destruct (handleUpload_begin_sent r (snap r) Hne Htok) as (token & _ & ->).
    rewrite progress_events_spec.
    assert (exists e, o = Rejected e) as [e ->].
    { destruct Hfail; [congruence | eexists; reflexivity ..]. }
    cbn. repeat split; try reflexivity; try discriminate.
    right. left. reflexivity.
  - rewrite (handleUpload_begin_no_token r (snap r) Hne Htok).
    cbn. repeat split; try reflexivity. left. reflexivity.
Qed.

Lemma handleUpload_failure_witness :
  let photo := File.mk "front.jpg" 2097152 "image/jpeg" in
  let clip := File.mk "tour.mp4" 7340032 "video/mp4" in
  let p := mkProps (Some "42") (Some (fun _ _ => Returns)) None None in
  let e := mkEnv (Some "photographer") (Some "token") in
  let s := mkState raw [photo; clip] false (Fin 0) "two exposures" true local in
  let out := handleUpload (mkRender p e s) [(1024, Some 2048)]%N
               (Rejected (StatusCode 500)) s in
  files (state_of out) = [photo; clip]
  /\ notes (state_of out) = "two exposures"
  /\ notesChanged (state_of out) = true
  /\ uploading (state_of out) = false.
Proof.
  intros photo clip p e s out.
  destruct (handleUpload_failure (mkRender p e s) [(1024, Some 2048)]%N
              (Rejected (StatusCode 500)))
    as (Hf & Hn & Hd & Hu & _).
  - discriminate.
  - apply bad_status. lia.
  - repeat split; assumption.
Defined.

(** ** Sessions in flight *)

Lemma exec_busy_inv (h : Handler unit) (w : World) :
  keeps_uploading h -> busy_inv w -> busy_inv (exec h w).
Proof.
  intros Hk Hw. unfold busy_inv, exec in *. specialize (Hk (live w)).
  destruct (h (live w)) as [[u s] es]. unfold state_of in Hk. cbn in *.
  rewrite Hk. exact Hw.
Qed.

Lemma add_validated_spec (r : Render) (fl : list File) (s : State) :
  state_of (add_validated r fl s) =
  mkState (uploadType s)
    (files s ++ filter (accepted (allowedFileTypes (props r))) fl)
    (uploading s) (progress s) (notes s) (notesChanged s) (uploadMethod s).
Proof.
  unfold add_validated. destruct fl as [|f fl].
  - cbn. rewrite app_nil_r. destruct s; reflexivity.
  - unfold bind.
    pose proof (validateFiles_state r (f :: fl) s) as Hs.
    pose proof (validateFiles_result r (f :: fl) s) as Hr.
    destruct (validateFiles r (f :: fl) s) as [[v s1] es].
    unfold state_of, result_of in Hs, Hr. cbn [fst snd] in Hs, Hr.
    subst s1 v. rewrite validate_loop_spec. reflexivity.
Qed.

Lemma keeps_add_validated r fl : keeps_uploading (add_validated r fl).
Proof. intros s. now rewrite add_validated_spec. Qed.

Lemma keeps_setUploadMethod m : keeps_uploading (setUploadMethod m).
Proof. keeps. Qed.

Lemma keeps_connectDropbox : keeps_uploading connectDropbox.
Proof. keeps. Qed.

Lemma keeps_connectGoogleDrive : keeps_uploading connectGoogleDrive.
Proof. keeps. Qed.

Lemma keeps_connected :
  keeps_uploading dropbox_connected /\ keeps_uploading google_connected.
Proof. split; keeps. Qed.

Lemma keeps_setFiles f : keeps_uploading (setFiles f).
Proof. keeps. Qed.

Lemma keeps_setUploadType v : keeps_uploading (setUploadType v).
Proof. keeps. Qed.

Lemma keeps_handleNotesChange v : keeps_uploading (handleNotesChange v).
Proof. keeps. Qed.

Lemma keeps_handleSaveNotes_settled o :
  keeps_uploading (handleSaveNotes_settled o).
Proof. intros s. destruct o; reflexivity. Qed.

Lemma keeps_onUploadProgress loaded total :
  keeps_uploading (onUploadProgress loaded total).
Proof. keeps. Qed.

Lemma keeps_initialNotes_effect r : keeps_uploading (initialNotes_effect r).
Proof. intros s. rewrite initialNotes_effect_cases. keeps_cases. Qed.

Create HintDb keeps.

#[local] Hint Resolve keeps_add_validated keeps_setUploadMethod
  keeps_connectDropbox keeps_connectGoogleDrive keeps_setFiles
  keeps_setUploadType keeps_handleNotesChange keeps_handleSaveNotes_settled
  keeps_onUploadProgress keeps_initialNotes_effect : keeps.

Lemma handleUpload_settled_idle (r : Render) (o : Settled) (s : State) :
  uploading (state_of (handleUpload_settled r o s)) = false.
Proof.
  unfold handleUpload_settled. destruct o; [|reflexivity].
  destruct (onUploadComplete (props r)) as [callback|]; [|reflexivity].
  cbn. destruct (callback _ _); reflexivity.
Qed.

Lemma handleUpload_begin_cases (r : Render) (s : State) :
  let out := handleUpload_begin r s in
  (result_of out = true /\ uploading (state_of out) = true)
  \/ (result_of out = false /\ uploading (state_of out) = false
      /\ files (snap r) <> [])
  \/ (result_of out = false /\ state_of out = s /\ files (snap r) = []).
Proof.
  cbv zeta. destruct (files (snap r)) as [|f fs] eqn:E.
  - right. right. unfold handleUpload_begin. rewrite E. repeat split.
  - assert (Hne : files (snap r) <> []) by congruence.
    destruct (truthy (authToken (env r))) eqn:Htok.
    + destruct (handleUpload_begin_sent r s Hne Htok) as (token & _ & ->).
      left. split; reflexivity.
    + rewrite (handleUpload_begin_no_token r s Hne Htok).
      right. left. repeat split. congruence.
Qed.

Lemma step_busy_inv (w w' : World) (ev : Event) :
  busy_inv w -> step w ev = Some w' -> busy_inv w'.
Proof.
  intros Hw Hstep. unfold step in Hstep.
  destruct (available (render w) ev) eqn:Hav; [|discriminate].
  cbn [negb] in Hstep.
  destruct ev;
    try (injection Hstep as <-; apply exec_busy_inv; auto with keeps;
         apply keeps_connected).
  - destruct (nth_error dropbox_listing entry); [|discriminate].
    injection Hstep as <-. apply exec_busy_inv; [apply keeps_setFiles|exact Hw].
  - destruct (nth_error google_listing entry); [|discriminate].
    injection Hstep as <-. apply exec_busy_inv; [apply keeps_setFiles|exact Hw].
  - pose proof (handleSaveNotes_call_state (render w) (live w)) as Hs.
    destruct (handleSaveNotes_call (render w) (live w)) as [[called s] es].
    unfold state_of in Hs. cbn in Hs. subst s.
    injection Hstep as <-. exact Hw.
  - destruct (saves w); [discriminate|]. injection Hstep as <-.
    apply exec_busy_inv; [apply keeps_handleSaveNotes_settled|exact Hw].
  - cbn in Hav. apply negb_true_iff in Hav.
    pose proof (handleUpload_begin_cases (render w) (live w)) as Hb.
    cbv zeta in Hb.
    destruct (handleUpload_begin (render w) (live w)) as [[sent s] es].
    unfold state_of, result_of in Hb. cbn [fst snd] in Hb.
    injection Hstep as <-. unfold busy_inv in *. cbn.
    destruct (inflight w) as [|r0 [|r1 rest]]; [|congruence|contradiction].
    destruct Hb as [[-> Hu]|[(-> & Hu & _)|(-> & -> & _)]]; cbn; assumption.
  - destruct (nth_error (inflight w) session); [|discriminate].
    injection Hstep as <-.
    apply exec_busy_inv; [apply keeps_onUploadProgress|exact Hw].
  - destruct (nth_error (inflight w) session) as [r|] eqn:Hn; [|discriminate].
    injection Hstep as <-. unfold busy_inv in *. unfold exec. cbn.
    pose proof (handleUpload_settled_idle r o (live w)) as Hidle.
    destruct (handleUpload_settled r o (live w)) as [[u s] es].
    unfold state_of in Hidle. cbn in *.
    destruct (inflight w) as [|r0 [|r1 rest]]; [|..].
    + destruct session; discriminate.
    + destruct session as [|[|k]]; cbn in *; [exact Hidle|discriminate..].
    + contradiction.
  - destruct (_ =? _) in Hstep; injection Hstep as <-; [exact Hw|].
    apply exec_busy_inv; [apply keeps_initialNotes_effect|exact Hw].
Qed.

Lemma reachable_busy_inv (p : Props) (e : Env) (w : World) :
  reachable p e w -> busy_inv w.
Proof.
  induction 1 as [|w ev w' _ IH Hstep].
  - unfold mount. apply exec_busy_inv; [apply keeps_initialNotes_effect|].
    reflexivity.
  - exact (step_busy_inv w w' ev IH Hstep).
Qed.

Lemma handleUpload_begin_progress (r : Render) (s : State) :
  progress (state_of (handleUpload_begin r s)) = progress s.
Proof.
  unfold handleUpload_begin.
  destruct (List.length (files (snap r)) =? 0)%nat; [reflexivity|].
  destruct (authToken (env r)) as [token|]; [|reflexivity].
  destruct (truthy (Some token)); reflexivity.
Qed.

(** C1, as the code has it: in every state the mounted component reaches
    through its events, while the uploading flag is true the page does not
    offer the upload button: the click is refused by the view, not by
    [handleUpload], so that no handler runs (no second request, no write to
    the progress, no second session) and exactly one request is in flight.
    [handleUpload] itself has no busy check; the part of it that runs before
    its request is answered leaves the progress percentage as it is, in
    whatever state it is called. *)
Theorem startTransfer_gated_while_uploading (p : Props) (e : Env) (w : World) :
  reachable p e w ->
  uploading (live w) = true ->
  available (render w) ClickUpload = false
  /\ step w ClickUpload = None
  /\ (exists r, inflight w = [r])
  /\ (forall r s, progress (state_of (handleUpload_begin r s)) = progress s).
Proof.
  intros Hreach Hup.
  assert (Hav : available (render w) ClickUpload = false).
  { cbn. rewrite Hup. reflexivity. }
  split; [exact Hav|]. split; [unfold step; rewrite Hav; reflexivity|].
  split; [|exact handleUpload_begin_progress].
  apply reachable_busy_inv in Hreach. unfold busy_inv in Hreach.
  destruct (inflight w) as [|r [|r' rest]];
    [congruence | eexists; reflexivity | contradiction].
Qed.

Lemma run_reachable (p : Props) (e : Env) (evs : list Event) :
  forall w w', reachable p e w -> run w evs = Some w' -> reachable p e w'.
Proof.
  induction evs as [|ev evs IH]; intros w w' Hw Hrun; cbn in Hrun.
  - injection Hrun as <-. exact Hw.
  - destruct (step w ev) as [w1|] eqn:Hstep; [|discriminate].
    apply (IH w1 w'); [|exact Hrun]. exact (reach_step p e w ev w1 Hw Hstep).
Defined.

Lemma startTransfer_gated_while_uploading_witness :
  exists w,
    run (mount photographer_props photographer_env)
      [PickFiles [front_jpg]; ClickUpload] = Some w
    /\ uploading (live w) = true
    /\ step w ClickUpload = None
    /\ List.length (inflight w) = 1%nat.
Proof.
  eexists. split; [reflexivity|]. split; [reflexivity|].
  match goal with
  | |- step ?w0 _ = _ /\ _ =>
      destruct (startTransfer_gated_while_uploading
                  photographer_props photographer_env w0)
        as (_ & Hstep & [r Hr] & _)
  end.
  - apply (run_reachable photographer_props photographer_env
             [PickFiles [front_jpg]; ClickUpload]
             (mount photographer_props photographer_env));
      [apply reach_mount | reflexivity].
  - reflexivity.
  - split; [exact Hstep | rewrite Hr; reflexivity].
Defined.

(** C1 as stated fails: [handleUpload] called in a state whose uploading
    flag is true, with a file in the queue and a credential stored, sends a
    request like any other call. *)
Lemma handleUpload_reentry_counterexample :
  uploading (snap busy_render) = true
  /\ result_of (handleUpload_begin busy_render (snap busy_render)) = true
  /\ requests (effects_of (handleUpload_begin busy_render (snap busy_render)))
     = [[front_jpg]].
Proof. repeat split. Qed.

(** ** Admission into the queue *)

Lemma local_admission_validated (r : Render) (fl : list File) (s : State) :
  Forall (fun f => accepted (allowedFileTypes (props r)) f = true) (files s) ->
  Forall (fun f => accepted (allowedFileTypes (props r)) f = true)
    (files (state_of (handleFileInputChange r fl s)))
  /\ Forall (fun f => accepted (allowedFileTypes (props r)) f = true)
       (files (state_of (handleDrop r fl s))).
Proof.
  intros Hs. unfold handleFileInputChange, handleDrop.
  rewrite add_validated_spec. cbn [files].
  assert (Forall (fun f => accepted (allowedFileTypes (props r)) f = true)
            (files s ++ filter (accepted (allowedFileTypes (props r))) fl)).
  { apply Forall_app. split; [exact Hs|].
    apply Forall_forall. intros f Hf. apply filter_In in Hf. apply Hf. }
  split; assumption.
Qed.

(** C2 fails on the remote listings: after "Dropbox" and the "+" of the
    first entry, the queue of a component with the default policy holds a
    file of empty type, which the policy refuses; the local picker and the
    drop validate ([local_admission_validated]), the listing buttons append
    without validating. *)
Theorem remote_add_skips_validation :
  exists w,
    run (mount photographer_props photographer_env)
      [ClickDropbox; ClickAddDropbox 0] = Some w
    /\ files (live w) = [new_File "client_project_photo.jpg"]
    /\ includes (allowedFileTypes (w_props w))
         (File.type (new_File "client_project_photo.jpg")) = false
    /\ Forall (fun f => accepted (allowedFileTypes (w_props w)) f = false)
         (files (live w)).
Proof.
  eexists. split; [reflexivity|]. split; [reflexivity|].
  split; [reflexivity|]. repeat constructor.
Qed.

(** ** Progress *)

Lemma binary_round_aux_unsigned (mx ex : Z) (lx : SpecFloat.location) :
  unsigned (SpecFloat.binary_round_aux 53 1024 false mx ex lx).
Proof.
  unfold SpecFloat.binary_round_aux.
  destruct (SpecFloat.shr_fexp 53 1024 mx ex lx) as [mrs1 e1].
  destruct (SpecFloat.shr_fexp 53 1024 _ e1 SpecFloat.loc_Exact)
    as [mrs2 e2].
  destruct (SpecFloat.shr_m mrs2); [reflexivity | | exact I].
  destruct (Z.leb e2 (Z.sub 1024 53)); reflexivity.
Qed.

Lemma to_double_unsigned (n : N) : unsigned (to_double n).
Proof.
  unfold to_double, SpecFloat.binary_normalize.
  destruct (Z.of_N n) eqn:E; [reflexivity | | lia].
  unfold SpecFloat.binary_round.
  destruct (SpecFloat.shl_align _ _ _) as [mz ez].
  apply binary_round_aux_unsigned.
Qed.

(** The quotient [Math.round] receives never has its sign bit set, which
    is why [Math_round] reads magnitudes only. *)
Lemma percent_quotient_unsigned (loaded t : N) :
  unsigned (number_div (number_mul (to_double loaded) (to_double 100))
              (to_double t)).
Proof.
  pose proof (to_double_unsigned loaded) as Hl.
  pose proof (to_double_unsigned 100) as Hc.
  pose proof (to_double_unsigned t) as Ht.
  assert (Hm : unsigned (number_mul (to_double loaded) (to_double 100))).
  { unfold number_mul, SpecFloat.SFmul.
    destruct (to_double loaded) as [sx|sx| |sx mx ex],
             (to_double 100) as [sy|sy| |sy my ey];
      cbn in Hl, Hc |- *; subst; try reflexivity; try exact I.
    apply binary_round_aux_unsigned. }
  unfold number_div, SpecFloat.SFdiv.
  destruct (number_mul (to_double loaded) (to_double 100))
    as [sx|sx| |sx mx ex],
    (to_double t) as [sy|sy| |sy my ey];
    cbn in Hm, Ht |- *; subst; try reflexivity; try exact I.
  destruct (SpecFloat.SFdiv_core_binary 53 1024 (Z.pos mx) ex (Z.pos my) ey)
    as [[mz ez] lz].
  apply binary_round_aux_unsigned.
Qed.

Lemma progress_is_last_event (evs : list ProgressEvent) (loaded : N)
    (total : option N) (s : State) :
  progress (state_of (progress_events (evs ++ [(loaded, total)]) s))
  = percentCompleted loaded total.
Proof.
  rewrite progress_events_spec. unfold state_of, last_progress. cbn [fst snd progress].
  rewrite fold_left_app. reflexivity.
Qed.

(** C5 fails after a failed session: the failure branch of [handleUpload]
    does not reset the progress and neither does the start of the next
    call, so the second session starts at the 57 percent the first one
    stopped at, and its first progress event, 10 percent, lowers the
    percentage within the session. *)
Theorem progress_stale_after_failed_session :
  exists w w',
    run (mount photographer_props photographer_env) failed_then_retry = Some w
    /\ uploading (live w) = true
    /\ List.length (inflight w) = 1%nat
    /\ progress (live w) = Fin 57
    /\ step w (UploadProgress 0 10 (Some 100%N)) = Some w'
    /\ progress (live w') = Fin 10.
Proof.
  eexists. eexists. repeat split.
Qed.

(** * Further properties of the uploader *)

(** ** Local admission *)

Lemma filter_all {A} (p : A -> bool) (l : list A) :
  Forall (fun x => p x = true) l -> filter p l = l.
Proof.
  induction 1 as [|x l Hx _ IH]; cbn; [reflexivity|].
  rewrite Hx, IH. reflexivity.
Qed.

Lemma filter_none {A} (p : A -> bool) (l : list A) :
  Forall (fun x => p x = true) l -> filter (fun x => negb (p x)) l = [].
Proof.
  induction 1 as [|x l Hx _ IH]; cbn; [reflexivity|].
  rewrite Hx. exact IH.
Qed.

(** X1: the picker and the drop append the accepted files of the selection
    to the end of the queue, in the order of the selection, whatever is
    queued already (duplicates included) and touch no other field; a
    selection whose files all pass is appended whole with no notification,
    so N and then M valid files make a queue N + M longer; an empty
    selection does nothing at all. *)
Theorem local_add_appends (r : Render) (fl : list File) (s : State) :
  let allowed := allowedFileTypes (props r) in
  handleDrop r fl s = handleFileInputChange r fl s
  /\ state_of (handleDrop r fl s)
     = mkState (uploadType s) (files s ++ filter (accepted allowed) fl)
         (uploading s) (progress s) (notes s) (notesChanged s) (uploadMethod s)
  /\ (Forall (fun f => accepted allowed f = true) fl ->
      files (state_of (handleDrop r fl s)) = files s ++ fl
      /\ List.length (files (state_of (handleDrop r fl s)))
         = (List.length (files s) + List.length fl)%nat
      /\ effects_of (handleDrop r fl s) = [])
  /\ (fl = [] -> handleDrop r fl s = (tt, s, [])).
Proof.
  intros allowed. split; [reflexivity|]. split; [apply add_validated_spec|].
  split.
  - intros Hall. unfold handleDrop. rewrite add_validated_spec. cbn [files].
    fold allowed. rewrite (filter_all _ _ Hall).
    split; [reflexivity|]. split; [apply length_app|].
    unfold add_validated. destruct fl as [|f fl]; [reflexivity|].
    unfold bind.
    pose proof (validateFiles_effects r (f :: fl) s) as He.
    destruct (validateFiles r (f :: fl) s) as [[v s1] es].
    unfold effects_of in He. cbn [snd] in He |- *. subst es.
    fold allowed. rewrite validate_loop_spec. cbn [snd].
    rewrite (filter_none _ _ Hall). reflexivity.
  - intros ->. reflexivity.
Qed.

Lemma local_add_appends_witness :
  let clip := File.mk "tour.mp4" 7340032 "video/mp4" in
  let s := mkState raw [front_jpg] false (Fin 0) "" false local in
  let r := mkRender photographer_props photographer_env s in
  files (state_of (handleDrop r [clip; front_jpg] s))
  = [front_jpg; clip; front_jpg]
  /\ effects_of (handleDrop r [clip; front_jpg] s) = [].
Proof.
  intros clip s r.
  pose proof (local_add_appends r [clip; front_jpg] s) as H.
  cbv zeta in H. destruct H as (_ & _ & Hall & _).
  destruct Hall as (Hf & _ & He); [repeat constructor|].
  split; [exact Hf | exact He].
Defined.

(** ** Starting a transfer *)

(** X3: [handleUpload] sends its request exactly when the queue of its
    render is non-empty and a non-empty token is stored; it consults neither
    the uploading flag nor the shoot id (a component without a shoot posts
    all the same).  The request carries the whole queue in order.  With an
    empty queue the call only notifies "No files selected" and leaves the
    state, the uploading flag included, as it is. *)
Theorem handleUpload_begin_sends_iff (r : Render) (s : State) :
  let out := handleUpload_begin r s in
  let sends := negb (List.length (files (snap r)) =? 0)%nat
               && truthy (authToken (env r)) in
  result_of out = sends
  /\ requests (effects_of out) = (if sends then [files (snap r)] else [])
  /\ (sends = true -> uploading (state_of out) = true)
  /\ (files (snap r) = [] ->
      state_of out = s
      /\ effects_of out
         = [toast "No files selected" "Please select files to upload"
              destructive]).
Proof.
  cbv zeta. destruct (files (snap r)) as [|f fs] eqn:E.
  - unfold handleUpload_begin. rewrite E. cbn.
    repeat split; intros; try reflexivity; discriminate.
  - assert (Hne : files (snap r) <> []) by congruence.
    cbn [List.length Nat.eqb negb andb].
    destruct (truthy (authToken (env r))) eqn:Htok.
    + destruct (handleUpload_begin_sent r s Hne Htok) as (token & _ & ->).
      rewrite E. repeat split; intros; try reflexivity; discriminate.
    + rewrite (handleUpload_begin_no_token r s Hne Htok).
      repeat split; intros; try reflexivity; discriminate.
Qed.

Lemma handleUpload_begin_sends_iff_witness :
  let r := mkRender (mkProps None None None None)
             (mkEnv None (Some "token"))
             (mkState raw [front_jpg] true (Fin 0) "" false local) in
  uploading (state_of (handleUpload_begin r (snap r))) = true
  /\ requests (effects_of (handleUpload_begin r (snap r))) = [[front_jpg]].
Proof.
  intros r.
  pose proof (handleUpload_begin_sends_iff r (snap r)) as H.
  cbv zeta in H. destruct H as (_ & Hreq & Hup & _).
  split; [apply Hup; reflexivity | exact Hreq].
Defined.

(** X4: when the request is fulfilled but the completion callback throws,
    the call ends in the failure branch: after "Upload Complete" and the
    call of the callback it notifies "Upload Failed", clears the uploading
    flag and leaves the queue, the progress, the note text and the dirty
    flag as they are. *)
Theorem handleUpload_callback_throws (r : Render) (s : State)
    (callback : list File -> string -> Completion) :
  onUploadComplete (props r) = Some callback ->
  callback (files (snap r)) (notes (snap r)) = Throws ->
  state_of (handleUpload_settled r Fulfilled s)
  = mkState (uploadType s) (files s) false (progress s) (notes s)
      (notesChanged s) (uploadMethod s)
  /\ effects_of (handleUpload_settled r Fulfilled s)
     = [ toast "Upload Complete"
           (nat_to_string (List.length (files (snap r)))
              ++ " files uploaded successfully.") default_variant;
         call_onUploadComplete (files (snap r)) (notes (snap r));
         toast "Upload Failed" "Something went wrong while uploading."
           destructive ].
Proof.
  intros Hcb Hthrow. unfold handleUpload_settled. rewrite Hcb. cbn.
  rewrite Hthrow. split; reflexivity.
Qed.

Lemma handleUpload_callback_throws_witness :
  let p := mkProps (Some "42") (Some (fun _ _ => Throws)) None None in
  let s := mkState raw [front_jpg] true (Fin 100) "note" true local in
  let r := mkRender p photographer_env s in
  files (state_of (handleUpload_settled r Fulfilled s)) = [front_jpg]
  /\ uploading (state_of (handleUpload_settled r Fulfilled s)) = false
  /\ progress (state_of (handleUpload_settled r Fulfilled s)) = Fin 100.
Proof.
  intros p s r.
  destruct (handleUpload_callback_throws r s (fun _ _ => Throws))
    as [Hs _]; [reflexivity | reflexivity |].
  rewrite Hs. repeat split.
Defined.

(** ** Saving the note *)

(** X5: without a shoot id (none given, or the empty string)
    [handleSaveNotes] makes no call of [updateShoot], whatever the request
    would have answered: it notifies "Cannot save notes" and leaves the
    state, the dirty flag included, as it is; the page does not offer the
    save button either. *)
Theorem handleSaveNotes_unbound (r : Render) (o : Settled) (s : State) :
  truthy (shootId (props r)) = false ->
  handleSaveNotes r o s
  = (tt, s, [toast "Cannot save notes" "No shoot ID provided" destructive])
  /\ available r ClickSaveNotes = false.
Proof.
  intros Hid. split.
  - unfold handleSaveNotes, handleSaveNotes_call, bind.
    destruct (shootId (props r)) as [id|]; [rewrite Hid|]; reflexivity.
  - cbn. rewrite Hid. reflexivity.
Qed.

Lemma handleSaveNotes_unbound_witness :
  let s := mkState raw [] false (Fin 0) "draft" true local in
  let r := mkRender (mkProps (Some "") None None None) photographer_env s in
  state_of (handleSaveNotes r Fulfilled s) = s.
Proof.
  intros s r.
  destruct (handleSaveNotes_unbound r Fulfilled s) as [H _]; [reflexivity|].
  rewrite H. reflexivity.
Defined.

(** ** Labels, colours and icons *)

(** X7: the title, the placeholder and the three colour classes of the
    note box follow one and the same test (photographer, or no editor and
    the raw tab): blue classes go with the photographer wording and purple
    classes with the editor wording.  For the roles photographer, editor,
    admin and superadmin that side is also the field an independent save
    writes (photographer notes for blue, editing notes for purple); for any
    other role the box is still labelled by the tab while the save goes to
    the generic shoot notes. *)
Theorem notes_presentation_consistent (e : Env) (ut : UploadType) :
  (blue_side e ut = true ->
   getNotesBackgroundColorClass e ut = "bg-blue-50/60 dark:bg-blue-900/10"
   /\ getNotesTextColorClass e ut = "text-blue-800 dark:text-blue-300"
   /\ getNotesBorderColorClass e ut = "border-blue-200 dark:border-blue-700"
   /\ (getNotesTitle e ut = "Photographer Notes"
       \/ getNotesTitle e ut = "Photographer Upload Notes")
   /\ (getNotesPlaceholder e ut
       = "Add your notes about the shoot or specific instructions for the editor..."
       \/ getNotesPlaceholder e ut
          = "Add photographer notes or instructions for the editor..."))
  /\ (blue_side e ut = false ->
      getNotesBackgroundColorClass e ut
      = "bg-purple-50/60 dark:bg-purple-900/10"
      /\ getNotesTextColorClass e ut = "text-purple-800 dark:text-purple-300"
      /\ getNotesBorderColorClass e ut
         = "border-purple-200 dark:border-purple-700"
      /\ (getNotesTitle e ut = "Editor Notes"
          \/ getNotesTitle e ut = "Editor Upload Notes")
      /\ (getNotesPlaceholder e ut
          = "Add your notes about the edited files or any delivery instructions..."
          \/ getNotesPlaceholder e ut
             = "Add editor notes or delivery instructions..."))
  /\ (role_is e "photographer" || role_is e "editor" || role_is e "admin"
      || role_is e "superadmin" = true ->
      notesUpdate e ut
      = if blue_side e ut then photographerNotes else editingNotes)
  /\ (role_is e "photographer" || role_is e "editor" || role_is e "admin"
      || role_is e "superadmin" = false ->
      notesUpdate e ut = shootNotes
      /\ getNotesTitle e ut
         = if is_raw ut then "Photographer Upload Notes"
           else "Editor Upload Notes").
Proof.
  unfold blue_side, getNotesBackgroundColorClass, getNotesTextColorClass,
    getNotesBorderColorClass, getNotesTitle, getNotesPlaceholder, notesUpdate.
  destruct (role_is e "photographer"), (role_is e "editor"),
    (role_is e "admin"), (role_is e "superadmin"), ut; cbn;
    repeat split; intros; try discriminate; auto.
Qed.

Lemma notes_presentation_consistent_witness :
  let e := mkEnv (Some "admin") None in
  getNotesTitle e edited = "Editor Upload Notes"
  /\ getNotesBackgroundColorClass e edited
     = "bg-purple-50/60 dark:bg-purple-900/10"
  /\ notesUpdate e edited = editingNotes.
Proof.
  intros e.
  destruct (notes_presentation_consistent e edited)
    as (_ & Hpurple & Hfield & _).
  destruct Hpurple as (Hbg & _); [reflexivity|].
  split; [reflexivity|]. split; [exact Hbg|].
  rewrite Hfield; reflexivity.
Defined.

Lemma includes_In (l : list string) (x : string) :
  includes l x = true <-> In x l.
Proof.
  unfold includes. rewrite existsb_exists. split.
  - intros [y [Hy Heq]]. apply String.eqb_eq in Heq. now subst.
  - intros H. exists x. split; [exact H | apply String.eqb_refl].
Qed.

(** X8: a file whose type is in the default allow-list never gets the
    generic icon: the three image types get the image icon, the two video
    types the film icon and the two archive types the folder icon.  A file
    made by a remote listing button has no type and gets the generic icon
    whatever its name says. *)
Theorem default_types_have_icons (f : File) :
  includes default_allowedFileTypes (File.type f) = true ->
  getFileIcon f <> FileIcon
  /\ (getFileIcon f = ImageIcon <->
      In (File.type f) ["image/jpeg"; "image/png"; "image/tiff"])
  /\ (getFileIcon f = FilmIcon <->
      In (File.type f) ["video/mp4"; "video/quicktime"])
  /\ (getFileIcon f = FolderIcon <->
      In (File.type f) ["application/zip"; "application/x-zip-compressed"])
  /\ (forall name, getFileIcon (new_File name) = FileIcon).
Proof.
  intros H. apply includes_In in H. unfold getFileIcon.
  cbn [default_allowedFileTypes In] in H.
  destruct H as [H|[H|[H|[H|[H|[H|[H|[]]]]]]]]; rewrite <- H; cbn;
    (split; [discriminate|]);
    repeat split; intros; try reflexivity; try discriminate;
    repeat match goal with
           | Hx : _ \/ _ |- _ => destruct Hx
           | Hx : False |- _ => destruct Hx
           end;
    try discriminate; auto.
Qed.

Lemma default_types_have_icons_witness :
  getFileIcon (File.mk "pkg.zip" 10 "application/x-zip-compressed")
  = FolderIcon.
Proof.
  destruct (default_types_have_icons
              (File.mk "pkg.zip" 10 "application/x-zip-compressed"))
    as (_ & _ & _ & Hzip & _); [reflexivity|].
  apply Hzip. right. left. reflexivity.
Defined.

(** ** The percentage *)

(** X10: the percentage shown after a run of progress events is the one of
    the latest event alone: earlier events leave no trace, whatever they
    reported (a smaller total, no total, a larger count); the run writes no
    other field of the state and notifies nothing. *)
Theorem progress_shows_latest_event (before : list ProgressEvent)
    (loaded : N) (total : option N) (s : State) :
  let out := progress_events (before ++ [(loaded, total)]) s in
  state_of out
  = mkState (uploadType s) (files s) (uploading s)
      (percentCompleted loaded total) (notes s) (notesChanged s)
      (uploadMethod s)
  /\ effects_of out = []
  /\ state_of out = state_of (progress_events [(loaded, total)] s).
Proof.
  cbv zeta. rewrite !progress_events_spec.
  unfold state_of, effects_of, last_progress. cbn [fst snd].
  rewrite fold_left_app. cbn [fold_left fst snd].
  repeat split.
Qed.

(** ** What an event leaves alone *)

Lemma handleUpload_begin_keeps (r : Render) (s : State) :
  let s' := state_of (handleUpload_begin r s) in
  uploadType s' = uploadType s /\ files s' = files s
  /\ notes s' = notes s /\ notesChanged s' = notesChanged s
  /\ uploadMethod s' = uploadMethod s.
Proof.
  cbv zeta. unfold handleUpload_begin.
  destruct (List.length (files (snap r)) =? 0)%nat; [repeat split|].
  destruct (authToken (env r)) as [token|]; [|repeat split].
  destruct (truthy (Some token)); repeat split.
Qed.

Lemma handleUpload_settled_keeps (r : Render) (o : Settled) (s : State) :
  let s' := state_of (handleUpload_settled r o s) in
  uploadType s' = uploadType s /\ notes s' = notes s
  /\ uploadMethod s' = uploadMethod s
  /\ (files s' = [] \/ files s' = files s).
Proof.
  cbv zeta. unfold handleUpload_settled.
  destruct o; [|repeat split; right; reflexivity].
  destruct (onUploadComplete (props r)) as [callback|];
    [|repeat split; left; reflexivity].
  cbn. destruct (callback _ _); repeat split; auto.
Qed.

Lemma filter_from_Forall {A} (P : A -> Prop) (p : A -> Z -> bool)
    (l : list A) : forall i,
  Forall P l -> Forall P (filter_from p i l).
Proof.
  induction l as [|x l IH]; intros i Hl; cbn [filter_from]; [constructor|].
  inversion Hl as [|? ? Hx Hl']; subst.
  destruct (p x i); [constructor|]; auto.
Qed.

Lemma step_keeps_queue (w w' : World) (ev : Event) :
  step w ev = Some w' ->
  queue_event ev = false ->
  files (live w') = files (live w).
Proof.
  intros Hstep Hq. unfold step in Hstep.
  destruct (available (render w) ev); [|discriminate].
  cbn [negb] in Hstep.
  destruct ev; try discriminate Hq;
    try (injection Hstep as <-; reflexivity).
  - pose proof (handleSaveNotes_call_state (render w) (live w)) as Hs.
    destruct (handleSaveNotes_call (render w) (live w)) as [[called s] es].
    unfold state_of in Hs. cbn in Hs. subst s.
    injection Hstep as <-. reflexivity.
  - destruct (saves w); [discriminate|]. injection Hstep as <-.
    destruct o; reflexivity.
  - pose proof (handleUpload_begin_keeps (render w) (live w)) as Hk.
    cbv zeta in Hk. destruct Hk as (_ & Hf & _).
    destruct (handleUpload_begin (render w) (live w)) as [[sent s] es].
    injection Hstep as <-. exact Hf.
  - destruct (nth_error (inflight w) session); [|discriminate].
    injection Hstep as <-. reflexivity.
  - destruct (_ =? _) in Hstep; injection Hstep as <-; [reflexivity|].
    unfold exec. rewrite initialNotes_effect_cases.
    destruct (negb _ && negb _); reflexivity.
Qed.

(** X11: only adding, removing, clearing and the end of a transfer write
    the queue: switching between local, Dropbox and Google Drive (and the
    delayed "connected" notices), switching the tab, typing and saving the
    note, starting a transfer, progress events and a new initial note text
    all leave the queue, contents and order, as it is. *)
Theorem queue_untouched_by_other_events (w w' : World) (ev : Event) :
  step w ev = Some w' ->
  queue_event ev = false ->
  files (live w') = files (live w).
Proof. apply step_keeps_queue. Qed.

Lemma queue_untouched_by_other_events_witness :
  let w := mkWorld photographer_props photographer_env
             (mkState raw [front_jpg] false (Fin 0) "" false local) [] 0 [] in
  exists w', step w ClickGoogleDrive = Some w'
    /\ files (live w') = [front_jpg]
    /\ uploadMethod (live w') = google.
Proof.
  intros w. eexists. split; [reflexivity|].
  split; [|reflexivity].
  match goal with
  | |- files (live ?w1) = _ =>
      apply (queue_untouched_by_other_events w w1 ClickGoogleDrive);
        reflexivity
  end.
Defined.

(** ** Invariants of the mounted component *)

Lemma step_keeps_env_and_tab (w w' : World) (ev : Event) :
  step w ev = Some w' ->
  w_env w' = w_env w
  /\ allowedFileTypes (w_props w') = allowedFileTypes (w_props w)
  /\ (showRawTab (w_env w) && showEditedTab (w_env w) = false ->
      uploadType (live w') = uploadType (live w)).
Proof.
  intros Hstep. unfold step in Hstep.
  destruct (available (render w) ev) eqn:Hav; [|discriminate].
  cbn [negb] in Hstep.
  destruct ev;
    try (injection Hstep as <-; repeat split; fail).
  - injection Hstep as <-. unfold exec, handleFileInputChange.
    pose proof (add_validated_spec (render w) target_files (live w)) as Hs.
    destruct (add_validated (render w) target_files (live w)) as [[u s] es].
    unfold state_of in Hs. cbn in Hs. subst s. repeat split.
  - injection Hstep as <-. unfold exec, handleDrop.
    pose proof (add_validated_spec (render w) dataTransfer_files (live w))
      as Hs.
    destruct (add_validated (render w) dataTransfer_files (live w))
      as [[u s] es].
    unfold state_of in Hs. cbn in Hs. subst s. repeat split.
  - destruct (nth_error dropbox_listing entry); [|discriminate].
    injection Hstep as <-. repeat split.
  - destruct (nth_error google_listing entry); [|discriminate].
    injection Hstep as <-. repeat split.
  - injection Hstep as <-. cbn in Hav. split; [reflexivity|].
    split; [reflexivity|]. intros Htabs. cbn in Htabs. congruence.
  - pose proof (handleSaveNotes_call_state (render w) (live w)) as Hs.
    destruct (handleSaveNotes_call (render w) (live w)) as [[called s] es].
    unfold state_of in Hs. cbn in Hs. subst s.
    injection Hstep as <-. repeat split.
  - destruct (saves w); [discriminate|]. injection Hstep as <-.
    destruct o; repeat split.
  - pose proof (handleUpload_begin_keeps (render w) (live w)) as Hk.
    cbv zeta in Hk. destruct Hk as (Ht & _).
    destruct (handleUpload_begin (render w) (live w)) as [[sent s] es].
    injection Hstep as <-. repeat split. intros _. exact Ht.
  - destruct (nth_error (inflight w) session); [|discriminate].
    injection Hstep as <-. repeat split.
  - destruct (nth_error (inflight w) session) as [r|]; [|discriminate].
    injection Hstep as <-. unfold exec. cbn [live].
    pose proof (handleUpload_settled_keeps r o (live w)) as Hk.
    cbv zeta in Hk. destruct Hk as (Ht & _).
    destruct (handleUpload_settled r o (live w)) as [[u s] es].
    repeat split. intros _. exact Ht.
  - destruct (_ =? _) in Hstep; injection Hstep as <-; [repeat split|].
    unfold exec. rewrite initialNotes_effect_cases.
    destruct (negb _ && negb _); repeat split.
Qed.

(** X12: for a user who is neither admin nor superadmin the page shows no
    tabs, and in every state the mounted component reaches the upload
    category is the one the role fixed at the first render: edited for an
    editor, raw for everybody else; an independent save of an editor
    therefore always writes the editing notes. *)
Theorem uploadType_fixed_without_tabs (p : Props) (e : Env) (w : World) :
  reachable p e w ->
  showRawTab e && showEditedTab e = false ->
  w_env w = e
  /\ uploadType (live w) = initialUploadType e
  /\ (forall v, step w (SwitchTab v) = None)
  /\ (role e = Some "editor" ->
      uploadType (live w) = edited
      /\ notesUpdate (w_env w) (uploadType (live w)) = editingNotes).
Proof.
  intros Hreach Htabs.
  assert (Hinv : w_env w = e /\ uploadType (live w) = initialUploadType e).
  { induction Hreach as [|w ev w' _ IH Hstep].
    - unfold mount, exec. rewrite initialNotes_effect_cases.
      destruct (negb _ && negb _); split; reflexivity.
    - destruct IH as [He Hu].
      destruct (step_keeps_env_and_tab w w' ev Hstep) as (He' & _ & Hu').
      rewrite He in *. split; [exact He'|]. rewrite Hu' by exact Htabs.
      exact Hu. }
  destruct Hinv as [He Hu]. split; [exact He|]. split; [exact Hu|]. split.
  - intros v. unfold step. cbn. rewrite He, Htabs. reflexivity.
  - intros Hrole. rewrite Hu, He. unfold initialUploadType, notesUpdate, role_is.
    rewrite Hrole. split; reflexivity.
Qed.

Lemma uploadType_fixed_without_tabs_witness :
  let e := mkEnv (Some "editor") (Some "token") in
  exists w,
    run (mount photographer_props e)
      [PickFiles [front_jpg]; TypeNotes "retouched"; ClickDropbox] = Some w
    /\ uploadType (live w) = edited
    /\ step w (SwitchTab raw) = None.
Proof.
  intros e. eexists. split; [reflexivity|].
  match goal with
  | |- uploadType (live ?w1) = _ /\ _ =>
      destruct (uploadType_fixed_without_tabs photographer_props e w1)
        as (_ & _ & Htab & Hed)
  end.
  - apply (run_reachable photographer_props e
             [PickFiles [front_jpg]; TypeNotes "retouched"; ClickDropbox]
             (mount photographer_props e));
      [apply reach_mount | reflexivity].
  - reflexivity.
  - split; [apply Hed; reflexivity | apply Htab].
Defined.

Lemma step_keeps_policy (w w' : World) (ev : Event) :
  step w ev = Some w' ->
  remote_add ev = false ->
  Forall (policy_ok (w_props w)) (files (live w)) ->
  Forall (policy_ok (w_props w)) (files (live w')).
Proof.
  intros Hstep Hr Hw.
  destruct (queue_event ev) eqn:Hq.
  - unfold step in Hstep.
    destruct (available (render w) ev); [|discriminate].
    cbn [negb] in Hstep.
    destruct ev; try discriminate Hq; try discriminate Hr;
      try (injection Hstep as <-; constructor).
    + injection Hstep as <-.
      apply (local_admission_validated (render w) target_files (live w)) in Hw.
      destruct Hw as [Hw _]. unfold exec. unfold state_of in Hw.
      destruct (handleFileInputChange (render w) target_files (live w))
        as [[u s] es]. exact Hw.
    + injection Hstep as <-.
      apply (local_admission_validated (render w) dataTransfer_files (live w))
        in Hw.
      destruct Hw as [_ Hw]. unfold exec. unfold state_of in Hw.
      destruct (handleDrop (render w) dataTransfer_files (live w))
        as [[u s] es]. exact Hw.
    + injection Hstep as <-. cbn. unfold js_filter.
      apply filter_from_Forall. exact Hw.
    + destruct (nth_error (inflight w) session) as [r|]; [|discriminate].
      injection Hstep as <-. unfold exec. cbn [live].
      pose proof (handleUpload_settled_keeps r o (live w)) as Hk.
      cbv zeta in Hk. destruct Hk as (_ & _ & _ & Hf).
      destruct (handleUpload_settled r o (live w)) as [[u s] es].
      unfold state_of in Hf. cbn in Hf |- *.
      destruct Hf as [-> | ->]; [constructor | exact Hw].
  - rewrite (step_keeps_queue w w' ev Hstep Hq). exact Hw.
Qed.

Lemma run_keeps_policy (p : Props) (evs : list Event) : forall w0 w,
  run w0 evs = Some w ->
  forallb (fun ev => negb (remote_add ev)) evs = true ->
  allowedFileTypes (w_props w0) = allowedFileTypes p ->
  Forall (policy_ok p) (files (live w0)) ->
  allowedFileTypes (w_props w) = allowedFileTypes p
  /\ Forall (policy_ok p) (files (live w)).
Proof.
  induction evs as [|ev evs IH]; intros w0 w Hrun Hloc Hp Hw0; cbn in Hrun.
  - injection Hrun as <-. split; assumption.
  - destruct (step w0 ev) as [w1|] eqn:Hstep; [|discriminate].
    cbn in Hloc. apply andb_prop in Hloc. destruct Hloc as [Hev Hloc].
    apply negb_true_iff in Hev.
    destruct (step_keeps_env_and_tab w0 w1 ev Hstep) as (_ & Hp1 & _).
    apply (IH w1 w Hrun Hloc); [congruence|].
    assert (Hsame : forall f, policy_ok (w_props w0) f <-> policy_ok p f).
    { intros f. unfold policy_ok. rewrite Hp. reflexivity. }
    eapply Forall_impl; [intros f; apply Hsame|].
    apply (step_keeps_policy w0 w1 ev Hstep Hev).
    eapply Forall_impl; [intros f; apply Hsame|]. exact Hw0.
Qed.

(** X2: as long as no "+" button of a remote listing is pressed, every
    file in the queue of the mounted component satisfies the policy of its
    props (type in the allowed list, size within the limit), whatever is
    picked, dropped, removed, cleared or transferred; the allowed types
    themselves never change. *)
Theorem local_queue_satisfies_policy (p : Props) (e : Env)
    (evs : list Event) (w : World) :
  run (mount p e) evs = Some w ->
  forallb (fun ev => negb (remote_add ev)) evs = true ->
  allowedFileTypes (w_props w) = allowedFileTypes p
  /\ Forall (policy_ok p) (files (live w)).
Proof.
  intros Hrun Hloc.
  apply (run_keeps_policy p evs (mount p e) w Hrun Hloc).
  - unfold mount, exec.
    destruct (initialNotes_effect _ _) as [[u s] es]. reflexivity.
  - unfold mount, exec. rewrite initialNotes_effect_cases.
    destruct (negb _ && negb _); constructor.
Qed.

Lemma local_queue_satisfies_policy_witness :
  let pdf := File.mk "plan.pdf" 10 "application/pdf" in
  let huge := File.mk "tour.mp4" 157286400 "video/mp4" in
  exists w,
    run (mount photographer_props photographer_env)
      [DropFiles [pdf; front_jpg; huge]; PickFiles [front_jpg]; ClickRemove 0]
    = Some w
    /\ files (live w) = [front_jpg]
    /\ Forall (policy_ok photographer_props) (files (live w)).
Proof.
  intros pdf huge. eexists. split; [reflexivity|]. split; [reflexivity|].
  match goal with
  | |- Forall _ (files (live ?w1)) =>
      apply (local_queue_satisfies_policy photographer_props photographer_env
               [DropFiles [pdf; front_jpg; huge]; PickFiles [front_jpg];
                ClickRemove 0] w1); reflexivity
  end.
Defined.

(** X13: in every state the mounted component reaches, the uploading flag
    is true exactly when one request is in flight and false exactly when
    none is; two requests are never in flight, and while idle the transport
    has no session to report progress or an outcome for. *)
Theorem uploading_iff_inflight (p : Props) (e : Env) (w : World) :
  reachable p e w ->
  (uploading (live w) = true <-> exists r, inflight w = [r])
  /\ (uploading (live w) = false <-> inflight w = [])
  /\ (List.length (inflight w) <= 1)%nat
  /\ (uploading (live w) = false ->
      forall k loaded total o,
        step w (UploadProgress k loaded total) = None
        /\ step w (UploadSettled k o) = None).
Proof.
  intros Hreach. apply reachable_busy_inv in Hreach.
  unfold busy_inv in Hreach.
  destruct (inflight w) as [|r [|r' rest]] eqn:E; [| |contradiction].
  - repeat split; try congruence; try (cbn; lia).
    + intros [r Hr]. discriminate.
    + unfold step. cbn. rewrite E. destruct k; reflexivity.
    + unfold step. cbn. rewrite E. destruct k; reflexivity.
  - repeat split; try congruence; try (cbn; lia).
    eexists; reflexivity.
Qed.

Lemma uploading_iff_inflight_witness :
  exists w,
    run (mount photographer_props photographer_env)
      [PickFiles [front_jpg]; ClickUpload;
       UploadSettled 0 (Rejected NetworkFailure)] = Some w
    /\ inflight w = []
    /\ step w (UploadProgress 0 10 (Some 100%N)) = None.
Proof.
  eexists. split; [reflexivity|].
  match goal with
  | |- inflight ?w1 = _ /\ _ =>
      destruct (uploading_iff_inflight photographer_props photographer_env w1)
        as (_ & Hidle & _ & Hstale)
  end.
  - apply (run_reachable photographer_props photographer_env
             [PickFiles [front_jpg]; ClickUpload;
              UploadSettled 0 (Rejected NetworkFailure)]
             (mount photographer_props photographer_env));
      [apply reach_mount | reflexivity].
  - split; [apply Hidle; reflexivity|].
    apply (Hstale eq_refl 0%nat 10%N (Some 100%N) Fulfilled).
Defined.

(** ** Requests that end after the state has moved on *)

(** X6: the end of a save clears the dirty flag of the note as it is then,
    not as it was sent: when the note is edited between the click on "Save
    Notes Only" and the answer, the fulfilled save leaves the new text in
    the box marked clean although [updateShoot] received the old text. *)
Theorem save_settles_over_later_edit (w : World) (id value : string) :
  shootId (w_props w) = Some id -> id <> "" ->
  notesChanged (live w) = true ->
  uploading (live w) = false ->
  exists w',
    run w [ClickSaveNotes; TypeNotes value; SaveSettled Fulfilled] = Some w'
    /\ notes (live w') = value
    /\ notesChanged (live w') = false
    /\ log w'
       = log w
         ++ [ updateShoot id (notesUpdate (w_env w) (uploadType (live w)))
                (notes (live w));
              toast "Notes saved"
                "Your upload notes have been saved successfully"
                default_variant ].
Proof.
  intros Hid Hne Hdirty Hidle.
  destruct w as [p e s inf sv lg]. destruct s as [ut fs up pr nt nc um].
  cbn in Hid, Hdirty, Hidle. subst nc up.
  apply String.eqb_neq in Hne.
  unfold run, step, available, render, handleSaveNotes_call. cbn.
  rewrite Hid. cbn. rewrite Hne. cbn.
  eexists. split; [reflexivity|]. cbn.
  repeat split. rewrite <- !app_assoc. reflexivity.
Qed.

Lemma save_settles_over_later_edit_witness :
  let w := mkWorld photographer_props photographer_env
             (mkState raw [] false (Fin 0) "first" true local) [] 0 [] in
  exists w',
    run w [ClickSaveNotes; TypeNotes "second"; SaveSettled Fulfilled] = Some w'
    /\ notes (live w') = "second"
    /\ notesChanged (live w') = false
    /\ log w'
       = [ updateShoot "42" photographerNotes "first";
           toast "Notes saved"
             "Your upload notes have been saved successfully"
             default_variant ].
Proof.
  intros w.
  destruct (save_settles_over_later_edit w "42" "second")
    as (w' & Hrun & Hn & Hc & Hl);
    [reflexivity | discriminate | reflexivity | reflexivity |].
  exists w'. repeat split; assumption.
Defined.

Lemma requests_app (a b : list Effect) :
  requests (a ++ b) = requests a ++ requests b.
Proof.
  induction a as [|x a IH]; [reflexivity|].
  destruct x; cbn; rewrite IH; reflexivity.
Qed.

Lemma callbacks_app (a b : list Effect) :
  callbacks (a ++ b) = callbacks a ++ callbacks b.
Proof.
  induction a as [|x a IH]; [reflexivity|].
  destruct x; cbn; rewrite IH; reflexivity.
Qed.

Lemma add_validated_quiet (r : Render) (fl : list File) (s : State) :
  requests (effects_of (add_validated r fl s)) = []
  /\ callbacks (effects_of (add_validated r fl s)) = [].
Proof.
  unfold add_validated. destruct fl as [|f fl]; [split; reflexivity|].
  unfold bind.
  pose proof (validateFiles_effects r (f :: fl) s) as He.
  destruct (validateFiles r (f :: fl) s) as [[v s1] es].
  unfold effects_of in He |- *. cbn [snd] in He |- *. subst es.
  unfold setFiles. cbn [snd]. rewrite app_nil_r.
  destruct (snd (validate_loop _ _)); split; reflexivity.
Qed.

Lemma step_DropFiles (w : World) (fl : list File) :
  uploadMethod (live w) = local ->
  step w (DropFiles fl) = Some (exec (handleDrop (render w) fl) w).
Proof.
  intros Hlocal. unfold step, available, render. cbn [snap].
  rewrite Hlocal. reflexivity.
Qed.

Lemma step_UploadSettled_only (w : World) (r : Render) (o : Settled) :
  inflight w = [r] ->
  step w (UploadSettled 0 o)
  = Some (exec (handleUpload_settled r o)
            (mkWorld (w_props w) (w_env w) (live w) [] (saves w) (log w))).
Proof.
  intros Hin. unfold step. cbn [available negb]. rewrite Hin. reflexivity.
Qed.

Lemma exec_fields (h : Handler unit) (w : World) :
  exec h w
  = mkWorld (w_props w) (w_env w) (state_of (h (live w))) (inflight w)
      (saves w) (log w ++ effects_of (h (live w))).
Proof. unfold exec. destruct (h (live w)) as [[u s] es]. reflexivity. Qed.

(** X14: the drop zone stays live during a transfer, but what is dropped
    then is neither sent nor kept: with one request in flight, files dropped
    before the answer join the queue, and the fulfilled answer, when the
    completion callback (if the caller gave one) returns, empties the whole
    queue, having sent no further request and handed the callback only the
    files of the render that started the transfer. *)
Theorem dropped_during_upload_discarded (w : World) (r : Render)
    (fl : list File) :
  inflight w = [r] ->
  uploadMethod (live w) = local ->
  callback_returns r ->
  exists w1 w2 es,
    step w (DropFiles fl) = Some w1
    /\ files (live w1)
       = files (live w)
         ++ filter (accepted (allowedFileTypes (w_props w))) fl
    /\ step w1 (UploadSettled 0 Fulfilled) = Some w2
    /\ files (live w2) = []
    /\ inflight w2 = []
    /\ log w2 = log w ++ es
    /\ requests es = []
    /\ callbacks es
       = match onUploadComplete (props r) with
         | Some _ => [(files (snap r), notes (snap r))]
         | None => []
         end.
Proof.
  intros Hin Hlocal Hcb.
  pose (w1 := exec (handleDrop (render w) fl) w).
  assert (Hw1 : w1 = exec (handleDrop (render w) fl) w) by reflexivity.
  rewrite exec_fields in Hw1. unfold handleDrop in Hw1.
  rewrite add_validated_spec in Hw1.
  destruct (add_validated_quiet (render w) fl (live w)) as [Hq1 Hq2].
  pose (w2 := exec (handleUpload_settled r Fulfilled)
                (mkWorld (w_props w1) (w_env w1) (live w1) [] (saves w1)
                   (log w1))).
  assert (Hw2 : w2 = exec (handleUpload_settled r Fulfilled)
                       (mkWorld (w_props w1) (w_env w1) (live w1) []
                          (saves w1) (log w1))) by reflexivity.
  rewrite exec_fields in Hw2. cbn [live w_props w_env inflight saves log] in Hw2.
  destruct (handleUpload_settled_success r (live w1) Hcb) as [Hs2 He2].
  rewrite Hs2 in Hw2.
  exists w1, w2,
    (effects_of (add_validated (render w) fl (live w))
     ++ effects_of (handleUpload_settled r Fulfilled (live w1))).
  split; [apply step_DropFiles; exact Hlocal|].
  split; [rewrite Hw1; reflexivity|].
  split; [apply step_UploadSettled_only; rewrite Hw1; exact Hin|].
  split; [rewrite Hw2; reflexivity|].
  split; [rewrite Hw2; reflexivity|].
  split.
  - rewrite Hw2. cbn [log]. rewrite Hw1 at 1. cbn [log].
    symmetry. apply app_assoc.
  - rewrite requests_app, callbacks_app, Hq1, Hq2, He2.
    split; destruct (onUploadComplete (props r)); reflexivity.
Qed.

Lemma dropped_during_upload_discarded_witness :
  let clip := File.mk "tour.mp4" 7340032 "video/mp4" in
  let s := mkState raw [front_jpg] true (Fin 40) "" false local in
  let r := mkRender photographer_props photographer_env
             (mkState raw [front_jpg] false (Fin 0) "" false local) in
  let w := mkWorld photographer_props photographer_env s [r] 0 [] in
  exists w1 w2,
    step w (DropFiles [clip]) = Some w1
    /\ files (live w1) = [front_jpg; clip]
    /\ step w1 (UploadSettled 0 Fulfilled) = Some w2
    /\ files (live w2) = []
    /\ requests (log w2) = [].
Proof.
  intros clip s r w.
  destruct (dropped_during_upload_discarded w r [clip])
    as (w1 & w2 & es & H1 & Hf1 & H2 & Hf2 & _ & Hlog & Hreq & _);
    [reflexivity | reflexivity | intros cb Hc; discriminate Hc |].
  exists w1, w2. split; [exact H1|]. split; [exact Hf1|].
  split; [exact H2|]. split; [exact Hf2|].
  rewrite Hlog. exact Hreq.
Defined.

(** * The payment link of the shoot dialog *)

(** X16: once the token is read, [handlePayment] posts its request
    whatever the stored token is (none included), and whatever comes back it
    ends with [isPaying] false.  It navigates only for an ok answer whose
    body carries a truthy [checkoutUrl] that the [href] setter accepts, to
    that URL; it notifies "Payment Error" exactly when the request is
    rejected, the answer is not ok, the body is unusable, or the setter
    throws on the [checkoutUrl]; never both; an ok answer with a falsy
    [checkoutUrl] (absent, or the empty string) does neither.  When reading
    the token itself throws, nothing is posted: the call notifies "Payment
    Error" and ends with [isPaying] false. *)
Theorem handlePayment_outcomes (assign_href : string -> Completion)
    (shoot_id : string) (token : option string)
    (res : ShootDetailDialog.FetchResult) (isPaying : bool) :
  let out := ShootDetailDialog.handlePayment assign_href shoot_id
               (ShootDetailDialog.ReadGives token) res isPaying in
  fst out = false
  /\ ShootDetailDialog.handlePayment assign_href shoot_id
       ShootDetailDialog.ReadThrows res isPaying
     = (false, [ShootDetailDialog.payment_error])
  /\ (exists rest,
        snd out
        = ShootDetailDialog.fetch_create_payment_link shoot_id token :: rest)
  /\ (forall u, In u (ShootDetailDialog.redirects (snd out)) ->
        res = ShootDetailDialog.Response true
                (ShootDetailDialog.BodyData (ShootDetailDialog.Truthy u))
        /\ assign_href u = Returns
        /\ ShootDetailDialog.redirects (snd out) = [u]
        /\ ShootDetailDialog.toasts (snd out) = [])
  /\ (ShootDetailDialog.toasts (snd out)
      = [ShootDetailDialog.payment_error]
      \/ ShootDetailDialog.toasts (snd out) = [])
  /\ (ShootDetailDialog.toasts (snd out) = [ShootDetailDialog.payment_error]
      <-> res = ShootDetailDialog.FetchRejected
          \/ (exists body, res = ShootDetailDialog.Response false body)
          \/ res = ShootDetailDialog.Response true
                     ShootDetailDialog.BodyUnusable
          \/ (exists u,
                res = ShootDetailDialog.Response true
                        (ShootDetailDialog.BodyData
                           (ShootDetailDialog.Truthy u))
                /\ assign_href u = Throws))
  /\ (res = ShootDetailDialog.Response true
              (ShootDetailDialog.BodyData ShootDetailDialog.Falsy) ->
      snd out = [ShootDetailDialog.fetch_create_payment_link shoot_id token])
  /\ (forall url, url <> "" -> assign_href url = Returns ->
        res = ShootDetailDialog.Response true
                (ShootDetailDialog.BodyData
                   (ShootDetailDialog.checkout_of_string url)) ->
        snd out
        = [ShootDetailDialog.fetch_create_payment_link shoot_id token;
           ShootDetailDialog.set_location_href url]).
Proof.
  cbv zeta. split; [reflexivity|]. split; [reflexivity|].
  split; [eexists; reflexivity|].
  split; [|split; [|split; [|split]]].
  - intros u Hu. destruct res as [|[|] [|[|v]]]; cbn in Hu; try contradiction.
    destruct (assign_href v) eqn:E; cbn in Hu; [|contradiction].
    destruct Hu as [<-|[]]. cbn. rewrite E. repeat split.
  - destruct res as [|[|] [|[|v]]]; cbn; auto.
    destruct (assign_href v); cbn; auto.
  - split.
    + destruct res as [|[|] [|[|v]]]; cbn; intros H; eauto 6;
        try discriminate.
      destruct (assign_href v) eqn:E; [discriminate|]. eauto 8.
    + intros [->|[[body ->]|[->|[u [-> E]]]]]; cbn; try reflexivity.
      rewrite E. reflexivity.
  - intros ->. reflexivity.
  - intros url Hne Hret ->. unfold ShootDetailDialog.checkout_of_string.
    apply String.eqb_neq in Hne. rewrite Hne. cbn. rewrite Hret. reflexivity.
Qed.

Lemma handlePayment_outcomes_witness :
  let assign_href := fun url => if url =? "http://" then Throws else Returns in
  ShootDetailDialog.handlePayment assign_href "7"
    (ShootDetailDialog.ReadGives None)
    (ShootDetailDialog.Response true
       (ShootDetailDialog.BodyData
          (ShootDetailDialog.checkout_of_string "https://pay.example/c/1")))
    false
  = (false,
     [ShootDetailDialog.fetch_create_payment_link "7" None;
      ShootDetailDialog.set_location_href "https://pay.example/c/1"])
  /\ ShootDetailDialog.toasts
       (snd (ShootDetailDialog.handlePayment assign_href "7"
    (ShootDetailDialog.ReadGives None)
               (ShootDetailDialog.Response true
                  (ShootDetailDialog.BodyData
                     (ShootDetailDialog.Truthy "http://"))) false))
     = [ShootDetailDialog.payment_error].
Proof.
  intros assign_href. split.
  - pose proof (handlePayment_outcomes assign_href "7" None
                  (ShootDetailDialog.Response true
                     (ShootDetailDialog.BodyData
                        (ShootDetailDialog.checkout_of_string
                           "https://pay.example/c/1"))) false) as H.
    cbv zeta in H. destruct H as (Hp & _ & _ & _ & _ & _ & _ & Hgo).
    specialize (Hgo "https://pay.example/c/1").
    destruct (ShootDetailDialog.handlePayment _ _ _ _ _) as [b es].
    cbn in Hp, Hgo. subst b. rewrite Hgo; [reflexivity | discriminate | |];
      reflexivity.
  - pose proof (handlePayment_outcomes assign_href "7" None
                  (ShootDetailDialog.Response true
                     (ShootDetailDialog.BodyData
                        (ShootDetailDialog.Truthy "http://"))) false) as H.
    cbv zeta in H. destruct H as (_ & _ & _ & _ & _ & Hiff & _).
    apply Hiff. right. right. right. exists "http://". split; reflexivity.
Defined.

(** * The branding image *)

(** ** Splitting a string *)

Lemma split_on_not_nil (c : ascii) (s : string) : split_on c s <> [].
Proof.
  destruct s as [|a s]; cbn; [discriminate|].
  destruct (Ascii.eqb a c); [discriminate|].
  destruct (split_on c s); discriminate.
Qed.

Lemma split_on_no_char (c : ascii) (s : string) :
  has_char c s = false -> split_on c s = [s].
Proof.
  induction s as [|a s IH]; cbn; [reflexivity|].
  destruct (Ascii.eqb a c); cbn; [discriminate|].
  intros H. rewrite (IH H). reflexivity.
Qed.

Lemma split_on_app (c : ascii) (x y : string) :
  split_on c (x ++ String c y) = split_on c x ++ split_on c y.
Proof.
  induction x as [|a x IH]; cbn.
  - rewrite Ascii.eqb_refl. reflexivity.
  - destruct (Ascii.eqb a c); [rewrite IH; reflexivity|].
    rewrite IH. pose proof (split_on_not_nil c x) as Hne.
    destruct (split_on c x) as [|h t]; [congruence | reflexivity].
Qed.

Lemma split_on_parts (c : ascii) (s : string) :
  Forall (fun part => has_char c part = false) (split_on c s).
Proof.
  induction s as [|a s IH]; cbn; [repeat constructor|].
  destruct (Ascii.eqb a c) eqn:E; [constructor; [reflexivity | exact IH]|].
  pose proof (split_on_not_nil c s) as Hne.
  destruct (split_on c s) as [|h t]; [congruence|].
  inversion IH as [|? ? Hh Ht]; subst.
  constructor; [cbn; rewrite E, Hh; reflexivity | exact Ht].
Qed.

Lemma last_In_or_default {A} (l : list A) (d : A) :
  l <> [] -> In (last l d) l.
Proof.
  induction l as [|x [|y l] IH]; intros Hne; [congruence | left; reflexivity|].
  right. apply IH. discriminate.
Qed.

(** X19: the extension [handleFileChange] gives the stored file is the part
    of the name after its last dot: it never contains a dot, a name
    [stem.ext] with no dot in [ext] gives [ext], and a name without any dot
    is its own extension (so "logo" is stored as "...-<time>.logo"). *)
Theorem fileExt_after_last_dot (name : string) :
  has_char "." (BrandingImageUpload.fileExt name) = false
  /\ (has_char "." name = false -> BrandingImageUpload.fileExt name = name)
  /\ (forall stem ext, name = (stem ++ "." ++ ext)%string ->
        has_char "." ext = false ->
        BrandingImageUpload.fileExt name = ext).
Proof.
  unfold BrandingImageUpload.fileExt. split; [|split].
  - pose proof (split_on_parts "." name) as Hparts.
    rewrite Forall_forall in Hparts. apply Hparts.
    apply last_In_or_default. apply split_on_not_nil.
  - intros H. rewrite (split_on_no_char "." name H). reflexivity.
  - intros stem ext -> Hext.
    change (stem ++ "." ++ ext)%string with (stem ++ String "." ext)%string.
    rewrite split_on_app, (split_on_no_char "." ext Hext).
    apply last_last.
Qed.

Lemma fileExt_after_last_dot_witness :
  BrandingImageUpload.fileExt "brand.logo.final.PNG" = "PNG"
  /\ BrandingImageUpload.fileExt "logo" = "logo".
Proof.
  split.
  - destruct (fileExt_after_last_dot "brand.logo.final.PNG") as (_ & _ & H).
    apply (H "brand.logo.final" "PNG"); reflexivity.
  - destruct (fileExt_after_last_dot "logo") as (_ & H & _).
    apply H. reflexivity.
Defined.

(** ** Choosing an image *)

(** X17: [handleFileChange] looks at the first file of the selection only
    and does nothing for an empty selection.  A first file whose type does
    not start with "image/" is refused with "Invalid file type", whatever its
    size; an image over 5 MiB is refused with "File too large"; a refusal
    changes no state, stores nothing and does not call [onChange]. *)
Theorem handleFileChange_rejects (p : BrandingImageUpload.Props)
    (e : BrandingImageUpload.Env) (f : File) (rest : list File)
    (res : BrandingImageUpload.UploadResult) (s : BrandingImageUpload.State) :
  BrandingImageUpload.handleFileChange p e (f :: rest) res s
  = BrandingImageUpload.handleFileChange p e [f] res s
  /\ BrandingImageUpload.handleFileChange p e [] res s = (s, [], Returns)
  /\ (prefix "image/" (File.type f) = false ->
      BrandingImageUpload.handleFileChange p e (f :: rest) res s
      = (s, [BrandingImageUpload.toast "Invalid file type"
               "Please upload an image file" destructive], Returns))
  /\ (prefix "image/" (File.type f) = true ->
      (BrandingImageUpload.max_size < File.size f)%N ->
      BrandingImageUpload.handleFileChange p e (f :: rest) res s
      = (s, [BrandingImageUpload.toast "File too large"
               "Image must be less than 5MB" destructive], Returns)).
Proof.
  split; [reflexivity|]. split; [reflexivity|].
  unfold BrandingImageUpload.handleFileChange. split.
  - intros ->. reflexivity.
  - intros -> Hsize. apply N.ltb_lt in Hsize. rewrite Hsize. reflexivity.
Qed.

Lemma handleFileChange_rejects_witness :
  let p := BrandingImageUpload.mkProps (fun _ => Returns) None in
  let e := BrandingImageUpload.mkEnv None 0 (fun x => x) (fun _ => "blob:1")
             (fun _ => None) in
  let s := BrandingImageUpload.mkState (Some "old") false in
  let big_pdf := File.mk "plan.pdf" 9000000 "application/pdf" in
  let big_png := File.mk "wall.png" 9000000 "image/png" in
  BrandingImageUpload.handleFileChange p e [big_pdf; big_png]
    BrandingImageUpload.Stored s
  = (s, [BrandingImageUpload.toast "Invalid file type"
           "Please upload an image file" destructive], Returns)
  /\ BrandingImageUpload.handleFileChange p e [big_png; big_pdf]
       BrandingImageUpload.Stored s
     = (s, [BrandingImageUpload.toast "File too large"
              "Image must be less than 5MB" destructive], Returns).
Proof.
  intros p e s big_pdf big_png. split.
  - destruct (handleFileChange_rejects p e big_pdf [big_png]
                BrandingImageUpload.Stored s) as (_ & _ & H & _).
    apply H. reflexivity.
  - destruct (handleFileChange_rejects p e big_png [big_pdf]
                BrandingImageUpload.Stored s) as (_ & _ & _ & H).
    apply H; reflexivity.
Defined.

(** X18: for an image of at most 5 MiB, [handleFileChange] asks the storage
    once, for the path "branding/<user or brand>-<time>.<ext>", and ends
    with [uploading] false and with a preview, which is the URL it handed to
    [onChange] last: this holds whether the storage answers or fails and
    whether [onChange] returns or throws.  With an [onChange] that returns,
    [onChange] is called exactly once: with the public URL of that path when
    the file was stored, with a local object URL when it was not. *)
Theorem handleFileChange_accepts (p : BrandingImageUpload.Props)
    (e : BrandingImageUpload.Env) (f : File) (rest : list File)
    (res : BrandingImageUpload.UploadResult) (s : BrandingImageUpload.State) :
  prefix "image/" (File.type f) = true ->
  (File.size f <= BrandingImageUpload.max_size)%N ->
  let out := BrandingImageUpload.handleFileChange p e (f :: rest) res s in
  let s' := fst (fst out) in
  let es := snd (fst out) in
  BrandingImageUpload.uploading s' = false
  /\ BrandingImageUpload.uploads es = [(BrandingImageUpload.filePath e f, f)]
  /\ prefix "branding/" (BrandingImageUpload.filePath e f) = true
  /\ BrandingImageUpload.removals es = []
  /\ BrandingImageUpload.changes es <> []
  /\ BrandingImageUpload.preview s'
     = Some (last (BrandingImageUpload.changes es) "")
  /\ ((forall url, BrandingImageUpload.onChange p url = Returns) ->
      snd out = Returns
      /\ BrandingImageUpload.changes es
         = [match res with
            | BrandingImageUpload.Stored =>
                BrandingImageUpload.getPublicUrl e
                  (BrandingImageUpload.filePath e f)
            | BrandingImageUpload.Failed =>
                BrandingImageUpload.createObjectURL e f
            end]).
Proof.
  intros Himg Hsize. cbv zeta.
  unfold BrandingImageUpload.handleFileChange. rewrite Himg.
  apply N.ltb_ge in Hsize. rewrite Hsize. cbn [negb].
  unfold BrandingImageUpload.fallback.
  split; [|split; [|split; [unfold BrandingImageUpload.filePath; cbn;
                            destruct (BrandingImageUpload.fileName e f);
                            reflexivity|]]].
  - destruct res; repeat (destruct (BrandingImageUpload.onChange p _));
      reflexivity.
  - destruct res; repeat (destruct (BrandingImageUpload.onChange p _));
      reflexivity.
  - split; [|split; [|split]].
    + destruct res; repeat (destruct (BrandingImageUpload.onChange p _));
        reflexivity.
    + destruct res; repeat (destruct (BrandingImageUpload.onChange p _));
        discriminate.
    + destruct res; repeat (destruct (BrandingImageUpload.onChange p _));
        reflexivity.
    + intros Hret. destruct res; rewrite !Hret; split; reflexivity.
Qed.

Lemma handleFileChange_accepts_witness :
  let p := BrandingImageUpload.mkProps (fun _ => Returns) None in
  let e := BrandingImageUpload.mkEnv (Some "u7") 1700000000000
             (fun path => ("https://x.supabase.co/user-files/" ++ path)%string)
             (fun _ => "blob:1") (fun _ => None) in
  let s := BrandingImageUpload.mkState None false in
  let png := File.mk "wall.final.png" 4096 "image/png" in
  BrandingImageUpload.handleFileChange p e [png] BrandingImageUpload.Stored s
  = (BrandingImageUpload.mkState
       (Some "https://x.supabase.co/user-files/branding/u7-1700000000000.png")
       false,
     [ BrandingImageUpload.storage_upload "branding/u7-1700000000000.png" png;
       BrandingImageUpload.call_onChange
         "https://x.supabase.co/user-files/branding/u7-1700000000000.png";
       BrandingImageUpload.toast "Image uploaded"
         "Your branding image has been updated" default_variant ],
     Returns)
  /\ BrandingImageUpload.changes
       (snd (fst (BrandingImageUpload.handleFileChange p e [png]
                    BrandingImageUpload.Failed s)))
     = ["blob:1"].
Proof.
  intros p e s png. split; [vm_compute; reflexivity|].
  pose proof (handleFileChange_accepts p e png [] BrandingImageUpload.Failed s)
    as H.
  cbv zeta in H.
  destruct H as (_ & _ & _ & _ & _ & _ & Hret);
    [reflexivity | unfold BrandingImageUpload.max_size; cbn; lia |].
  destruct Hret as [_ Hc]; [reflexivity|]. exact Hc.
Defined.

(** ** Removing the image *)

Lemma slice_last_two_app {A} (l : list A) (a b : A) :
  slice_last_two (l ++ [a; b]) = [a; b].
Proof.
  unfold slice_last_two. rewrite length_app. cbn [List.length].
  replace (List.length l + 2 - 2)%nat with (List.length l + 0)%nat by lia.
  rewrite skipn_app, Nat.add_0_r, skipn_all.
  replace (List.length l - List.length l)%nat with 0%nat by lia.
  reflexivity.
Qed.

Lemma str_includes_nonempty (sub s : string) :
  sub <> "" -> str_includes sub s = true -> s <> "".
Proof.
  intros Hsub H ->. destruct sub; [congruence | discriminate].
Qed.

Lemma removal_path_last_two (e : BrandingImageUpload.Env)
    (s : BrandingImageUpload.State) (pv base dir file : string) :
  BrandingImageUpload.preview s = Some pv ->
  str_includes "supabase" pv = true ->
  BrandingImageUpload.pathname e pv
  = Some (base ++ "/" ++ dir ++ "/" ++ file)%string ->
  has_char "/" dir = false -> has_char "/" file = false ->
  BrandingImageUpload.removal_path e s = Some (dir ++ "/" ++ file)%string.
Proof.
  intros Hpv Hsup Hpath Hdir Hfile.
  unfold BrandingImageUpload.removal_path. rewrite Hpv.
  assert (Hne : pv <> "") by (apply (str_includes_nonempty "supabase");
                              [discriminate | exact Hsup]).
  apply String.eqb_neq in Hne. cbn [truthy]. rewrite Hne, Hsup, Hpath.
  cbn [negb andb]. f_equal.
  change (base ++ "/" ++ dir ++ "/" ++ file)%string
    with (base ++ String "/" (dir ++ String "/" file))%string.
  rewrite !split_on_app, (split_on_no_char "/" dir Hdir),
    (split_on_no_char "/" file Hfile).
  change ([dir] ++ [file]) with [dir; file].
  rewrite slice_last_two_app. reflexivity.
Qed.

(** X20: [handleClearImage] always ends with no preview and hands
    [onChange] the empty string, once, whether or not the storage is asked
    and whatever [new URL] makes of the preview; it leaves [uploading] as it
    is and stores nothing.  It asks the storage to remove a file only for a
    preview that contains "supabase" and parses as a URL, and then the path
    it names is the last two segments of the URL's path: for a path ending
    in ".../dir/file" that is "dir/file", so the public URL of a stored
    image leads back to the "branding/..." path it was stored under. *)
Theorem handleClearImage_clears (p : BrandingImageUpload.Props)
    (e : BrandingImageUpload.Env) (s : BrandingImageUpload.State) :
  let out := BrandingImageUpload.handleClearImage p e s in
  let s' := fst (fst out) in
  let es := snd (fst out) in
  BrandingImageUpload.preview s' = None
  /\ BrandingImageUpload.uploading s' = BrandingImageUpload.uploading s
  /\ BrandingImageUpload.changes es = [""]
  /\ BrandingImageUpload.uploads es = []
  /\ BrandingImageUpload.removals es
     = match BrandingImageUpload.removal_path e s with
       | Some path => [path]
       | None => []
       end
  /\ (forall path, BrandingImageUpload.removal_path e s = Some path ->
        exists pv, BrandingImageUpload.preview s = Some pv
                   /\ str_includes "supabase" pv = true
                   /\ BrandingImageUpload.pathname e pv <> None)
  /\ (forall pv base dir file,
        BrandingImageUpload.preview s = Some pv ->
        str_includes "supabase" pv = true ->
        BrandingImageUpload.pathname e pv
        = Some (base ++ "/" ++ dir ++ "/" ++ file)%string ->
        has_char "/" dir = false -> has_char "/" file = false ->
        BrandingImageUpload.removals es = [(dir ++ "/" ++ file)%string]).
Proof.
  cbv zeta.
  assert (Hrem : BrandingImageUpload.removals
                   (snd (fst (BrandingImageUpload.handleClearImage p e s)))
                 = match BrandingImageUpload.removal_path e s with
                   | Some path => [path]
                   | None => []
                   end).
  { unfold BrandingImageUpload.handleClearImage.
    destruct (BrandingImageUpload.removal_path e s),
      (BrandingImageUpload.onChange p ""); reflexivity. }
  split; [|split; [|split; [|split; [|split; [exact Hrem|split]]]]].
  - unfold BrandingImageUpload.handleClearImage.
    destruct (BrandingImageUpload.onChange p ""); reflexivity.
  - unfold BrandingImageUpload.handleClearImage.
    destruct (BrandingImageUpload.onChange p ""); reflexivity.
  - unfold BrandingImageUpload.handleClearImage.
    destruct (BrandingImageUpload.removal_path e s),
      (BrandingImageUpload.onChange p ""); reflexivity.
  - unfold BrandingImageUpload.handleClearImage.
    destruct (BrandingImageUpload.removal_path e s),
      (BrandingImageUpload.onChange p ""); reflexivity.
  - intros path. unfold BrandingImageUpload.removal_path.
    destruct (BrandingImageUpload.preview s) as [pv|]; [|discriminate].
    destruct (truthy (Some pv)); [|discriminate]. cbn [andb].
    destruct (str_includes "supabase" pv) eqn:Hsup; [|discriminate].
    destruct (BrandingImageUpload.pathname e pv) eqn:Hpn; [|discriminate].
    intros _. exists pv. split; [reflexivity|]. split; [exact Hsup|].
    rewrite Hpn. discriminate.
  - intros pv base dir file Hpv Hsup Hpath Hdir Hfile. rewrite Hrem.
    rewrite (removal_path_last_two e s pv base dir file Hpv Hsup Hpath Hdir
               Hfile).
    reflexivity.
Qed.

Lemma handleClearImage_clears_witness :
  let p := BrandingImageUpload.mkProps (fun _ => Returns) None in
  let url :=
    "https://x.supabase.co/storage/v1/object/public/user-files/branding/u7-17.png" in
  let e := BrandingImageUpload.mkEnv (Some "u7") 17 (fun x => x)
             (fun _ => "blob:1")
             (fun _ =>
                Some "/storage/v1/object/public/user-files/branding/u7-17.png") in
  let s := BrandingImageUpload.mkState (Some url) false in
  BrandingImageUpload.removals
    (snd (fst (BrandingImageUpload.handleClearImage p e s)))
  = ["branding/u7-17.png"].
Proof.
  intros p url e s.
  pose proof (handleClearImage_clears p e s) as H. cbv zeta in H.
  destruct H as (_ & _ & _ & _ & _ & _ & Hpath).
  apply (Hpath url "/storage/v1/object/public/user-files" "branding"
           "u7-17.png"); reflexivity.
Defined.

(** * Linked clients and branding settings *)

Lemma get_key_absent (key : string) (o : list (string * string)) :
  includes (map fst o) key = false ->
  LinkClientBrandingDialog.get_key key o = None.
Proof.
  unfold includes. induction o as [|[k v] o IH]; cbn; [reflexivity|].
  rewrite (String.eqb_sym key k). destruct (k =? key); cbn; [discriminate|].
  exact IH.
Qed.

Lemma replace_key_get (key value other : string)
    (o : list (string * string)) :
  LinkClientBrandingDialog.get_key other
    (LinkClientBrandingDialog.replace_key key value o)
  = if (other =? key) && includes (map fst o) key then Some value
    else LinkClientBrandingDialog.get_key other o.
Proof.
  unfold includes. induction o as [|[k v] o IH]; cbn.
  - rewrite andb_false_r. reflexivity.
  - rewrite (String.eqb_sym key k).
    destruct (String.eqb_spec k key) as [->|Hk]; cbn.
    + rewrite (String.eqb_sym key other), andb_true_r.
      destruct (other =? key); reflexivity.
    + rewrite IH.
      destruct (String.eqb_spec other key) as [->|Ho]; cbn.
      * apply String.eqb_neq in Hk. rewrite Hk. reflexivity.
      * reflexivity.
Qed.

Lemma insert_index_get (n : N) (key value other : string)
    (o : list (string * string)) :
  includes (map fst o) key = false ->
  LinkClientBrandingDialog.get_key other
    (LinkClientBrandingDialog.insert_index n key value o)
  = if other =? key then Some value
    else LinkClientBrandingDialog.get_key other o.
Proof.
  unfold includes. induction o as [|[k v] o IH]; cbn; intros Habs.
  - rewrite (String.eqb_sym key other). reflexivity.
  - rewrite (String.eqb_sym key k) in Habs.
    destruct (String.eqb_spec k key) as [->|Hk]; cbn in Habs; [discriminate|].
    destruct (LinkClientBrandingDialog.array_index k) as [i|];
      [destruct (i <? n)%N|]; cbn; rewrite ?(String.eqb_sym key other);
      try reflexivity.
    rewrite (IH Habs).
    destruct (String.eqb_spec other key) as [->|Ho]; [|reflexivity].
    apply String.eqb_neq in Hk. rewrite Hk. reflexivity.
Qed.

Lemma append_key_get (key value other : string)
    (o : list (string * string)) :
  includes (map fst o) key = false ->
  LinkClientBrandingDialog.get_key other (o ++ [(key, value)])
  = if other =? key then Some value
    else LinkClientBrandingDialog.get_key other o.
Proof.
  unfold includes. induction o as [|[k v] o IH]; cbn; intros Habs.
  - rewrite (String.eqb_sym key other). reflexivity.
  - rewrite (String.eqb_sym key k) in Habs.
    destruct (String.eqb_spec k key) as [->|Hk]; cbn in Habs; [discriminate|].
    rewrite (IH Habs).
    destruct (String.eqb_spec other key) as [->|Ho]; [|reflexivity].
    apply String.eqb_neq in Hk. rewrite Hk. reflexivity.
Qed.

Lemma set_key_lookup (key value other : string)
    (o : list (string * string)) :
  LinkClientBrandingDialog.get_key other
    (LinkClientBrandingDialog.set_key key value o)
  = if other =? key then Some value
    else LinkClientBrandingDialog.get_key other o.
Proof.
  unfold LinkClientBrandingDialog.set_key.
  destruct (includes (map fst o) key) eqn:E.
  - rewrite replace_key_get, E, andb_true_r. reflexivity.
  - destruct (LinkClientBrandingDialog.array_index key) as [n|].
    + apply insert_index_get. exact E.
    + apply append_key_get. exact E.
Qed.

Lemma set_key_get (key value : string) (o : list (string * string)) :
  LinkClientBrandingDialog.get_key key
    (LinkClientBrandingDialog.set_key key value o) = Some value.
Proof. rewrite set_key_lookup, String.eqb_refl. reflexivity. Qed.

Lemma set_key_get_other (key value other : string)
    (o : list (string * string)) :
  other <> key ->
  LinkClientBrandingDialog.get_key other
    (LinkClientBrandingDialog.set_key key value o)
  = LinkClientBrandingDialog.get_key other o.
Proof.
  intros Hne. rewrite set_key_lookup.
  apply String.eqb_neq in Hne. rewrite Hne. reflexivity.
Qed.

Lemma replace_key_keys (key value : string) (o : list (string * string)) :
  map fst (LinkClientBrandingDialog.replace_key key value o) = map fst o.
Proof.
  induction o as [|[k v] o IH]; cbn; [reflexivity|].
  destruct (k =? key); cbn; [reflexivity|]. rewrite IH. reflexivity.
Qed.

Lemma set_key_keys_present (key value : string)
    (o : list (string * string)) :
  includes (map fst o) key = true ->
  map fst (LinkClientBrandingDialog.set_key key value o) = map fst o.
Proof.
  intros E. unfold LinkClientBrandingDialog.set_key. rewrite E.
  apply replace_key_keys.
Qed.

Lemma insert_index_keys (n : N) (key value : string)
    (o : list (string * string)) :
  exists before after,
    map fst o = before ++ after
    /\ map fst (LinkClientBrandingDialog.insert_index n key value o)
       = before ++ key :: after
    /\ Forall (fun k => exists i,
                 LinkClientBrandingDialog.array_index k = Some i
                 /\ (i < n)%N) before
    /\ match after with
       | [] => True
       | k :: _ => forall i, LinkClientBrandingDialog.array_index k = Some i ->
                              (n <= i)%N
       end.
Proof.
  induction o as [|[k v] o IH]; cbn.
  - exists [], []. repeat split. constructor.
  - destruct (LinkClientBrandingDialog.array_index k) as [i|] eqn:Ek.
    + destruct (N.ltb_spec i n) as [Hlt|Hge].
      * destruct IH as (before & after & Ho & Hn & Hb & Ha).
        exists (k :: before), after. cbn. rewrite Ho, Hn.
        repeat split; [|exact Ha].
        constructor; [exists i; split; assumption | exact Hb].
      * exists [], (k :: map fst o). cbn. repeat split; [constructor|].
        intros j Hj. rewrite Ek in Hj. injection Hj as <-. exact Hge.
    + exists [], (k :: map fst o). cbn. repeat split; [constructor|].
      intros j Hj. rewrite Ek in Hj. discriminate.
Qed.

(** X23: [handleBrandingChange] writes one key of the settings and nothing
    else: afterwards that key reads the new value and every other key reads
    what it read before; the linked clients and the current selection are as
    they were.  A key that is there keeps its place and the keys their
    order; a new key goes last, unless it is an array index (a canonical
    decimal such as "7"), which JavaScript enumerates after the smaller
    indices and before every other key. *)
Theorem handleBrandingChange_sets_one_key (key value : string)
    (s : LinkClientBrandingDialog.State) :
  let s' := LinkClientBrandingDialog.handleBrandingChange key value s in
  let keys := map fst (LinkClientBrandingDialog.brandingSettings s) in
  let keys' := map fst (LinkClientBrandingDialog.brandingSettings s') in
  LinkClientBrandingDialog.get_key key
    (LinkClientBrandingDialog.brandingSettings s') = Some value
  /\ (forall other, other <> key ->
        LinkClientBrandingDialog.get_key other
          (LinkClientBrandingDialog.brandingSettings s')
        = LinkClientBrandingDialog.get_key other
            (LinkClientBrandingDialog.brandingSettings s))
  /\ (includes keys key = true -> keys' = keys)
  /\ (includes keys key = false ->
      LinkClientBrandingDialog.array_index key = None ->
      keys' = keys ++ [key])
  /\ (forall n, includes keys key = false ->
        LinkClientBrandingDialog.array_index key = Some n ->
        exists before after,
          keys = before ++ after
          /\ keys' = before ++ key :: after
          /\ Forall (fun k => exists i,
                       LinkClientBrandingDialog.array_index k = Some i
                       /\ (i < n)%N) before
          /\ match after with
             | [] => True
             | k :: _ =>
                 forall i, LinkClientBrandingDialog.array_index k = Some i ->
                           (n <= i)%N
             end)
  /\ LinkClientBrandingDialog.linkedClients s'
     = LinkClientBrandingDialog.linkedClients s
  /\ LinkClientBrandingDialog.selectedClient s'
     = LinkClientBrandingDialog.selectedClient s.
Proof.
  cbv zeta. cbn [LinkClientBrandingDialog.handleBrandingChange
                   LinkClientBrandingDialog.brandingSettings
                   LinkClientBrandingDialog.linkedClients
                   LinkClientBrandingDialog.selectedClient].
  split; [apply set_key_get|].
  split; [intros other Hne; apply set_key_get_other; exact Hne|].
  split; [apply set_key_keys_present|].
  split; [|split; [|split; reflexivity]].
  - intros E Hidx. unfold LinkClientBrandingDialog.set_key.
    rewrite E, Hidx. rewrite map_app. reflexivity.
  - intros n E Hidx. unfold LinkClientBrandingDialog.set_key.
    rewrite E, Hidx. apply insert_index_keys.
Qed.

Lemma handleBrandingChange_sets_one_key_witness :
  let s := LinkClientBrandingDialog.handleBrandingChange "fontFamily" "Roboto"
             LinkClientBrandingDialog.initial_state in
  let t := LinkClientBrandingDialog.handleBrandingChange "7" "seven" s in
  LinkClientBrandingDialog.get_key "primaryColor"
    (LinkClientBrandingDialog.brandingSettings s) = Some "#1a56db"
  /\ map fst (LinkClientBrandingDialog.brandingSettings s)
     = LinkClientBrandingDialog.branding_keys
  /\ map fst (LinkClientBrandingDialog.brandingSettings t)
     = "7" :: LinkClientBrandingDialog.branding_keys.
Proof.
  intros s t.
  pose proof (handleBrandingChange_sets_one_key "fontFamily" "Roboto"
                LinkClientBrandingDialog.initial_state) as H.
  cbv zeta in H. destruct H as (_ & Hother & Hkeep & _).
  split; [unfold s; rewrite Hother; [reflexivity | discriminate]|].
  split; [unfold s; rewrite Hkeep; reflexivity|].
  vm_compute. reflexivity.
Defined.

Lemma filter_not_in (id : string) (l : list string) :
  ~ In id l -> filter (fun x => negb (x =? id)) l = l.
Proof.
  induction l as [|x l IH]; intros Hn; cbn; [reflexivity|].
  destruct (String.eqb_spec x id) as [->|Hne]; cbn.
  - exfalso. apply Hn. left. reflexivity.
  - rewrite IH; [reflexivity|]. intros H. apply Hn. right. exact H.
Qed.

(** X22: adding and removing a client undo each other: for a selected
    client that is not linked yet, "Add" puts it last and clears the
    selection, and removing it again gives back the list as it was;
    "Add" for a client already linked changes nothing, the selection
    included; after a removal the client is not in the list and the others
    are all there, in their order (the list is the clients before the
    removed one followed by those after it); removing a client that is not
    linked changes nothing. *)
Theorem add_and_remove_client (s : LinkClientBrandingDialog.State)
    (clientId : string) :
  (LinkClientBrandingDialog.selectedClient s <> "" ->
   ~ In (LinkClientBrandingDialog.selectedClient s)
       (LinkClientBrandingDialog.linkedClients s) ->
   LinkClientBrandingDialog.handleAddClient s
   = LinkClientBrandingDialog.mkState
       (LinkClientBrandingDialog.linkedClients s
        ++ [LinkClientBrandingDialog.selectedClient s]) ""
       (LinkClientBrandingDialog.brandingSettings s)
   /\ LinkClientBrandingDialog.linkedClients
        (LinkClientBrandingDialog.handleRemoveClient
           (LinkClientBrandingDialog.selectedClient s)
           (LinkClientBrandingDialog.handleAddClient s))
      = LinkClientBrandingDialog.linkedClients s)
  /\ (In (LinkClientBrandingDialog.selectedClient s)
        (LinkClientBrandingDialog.linkedClients s) ->
      LinkClientBrandingDialog.handleAddClient s = s)
  /\ ~ In clientId
         (LinkClientBrandingDialog.linkedClients
            (LinkClientBrandingDialog.handleRemoveClient clientId s))
  /\ (forall other, other <> clientId ->
        (In other (LinkClientBrandingDialog.linkedClients
                     (LinkClientBrandingDialog.handleRemoveClient clientId s))
         <-> In other (LinkClientBrandingDialog.linkedClients s)))
  /\ (forall before after,
        LinkClientBrandingDialog.linkedClients s
        = before ++ clientId :: after ->
        ~ In clientId before -> ~ In clientId after ->
        LinkClientBrandingDialog.handleRemoveClient clientId s
        = LinkClientBrandingDialog.mkState (before ++ after)
            (LinkClientBrandingDialog.selectedClient s)
            (LinkClientBrandingDialog.brandingSettings s))
  /\ (~ In clientId (LinkClientBrandingDialog.linkedClients s) ->
      LinkClientBrandingDialog.handleRemoveClient clientId s = s).
Proof.
  split; [|split; [|split; [|split; [|split]]]].
  - intros Hsel Hfresh.
    assert (Hadd : LinkClientBrandingDialog.handleAddClient s
                   = LinkClientBrandingDialog.mkState
                       (LinkClientBrandingDialog.linkedClients s
                        ++ [LinkClientBrandingDialog.selectedClient s]) ""
                       (LinkClientBrandingDialog.brandingSettings s)).
    { unfold LinkClientBrandingDialog.handleAddClient.
      apply String.eqb_neq in Hsel. rewrite Hsel.
      destruct (includes _ _) eqn:E; [|reflexivity].
      apply includes_In in E. contradiction. }
    split; [exact Hadd|]. rewrite Hadd. cbn.
    rewrite filter_app, (filter_not_in _ _ Hfresh). cbn.
    rewrite String.eqb_refl. cbn. apply app_nil_r.
  - intros Hin. unfold LinkClientBrandingDialog.handleAddClient.
    apply includes_In in Hin. rewrite Hin, andb_false_r. reflexivity.
  - cbn. intros H. apply filter_In in H. destruct H as [_ H].
    rewrite String.eqb_refl in H. discriminate.
  - intros other Hne. cbn. rewrite filter_In.
    apply String.eqb_neq in Hne. rewrite Hne. cbn. tauto.
  - intros before after Hl Hb Ha.
    unfold LinkClientBrandingDialog.handleRemoveClient. rewrite Hl.
    rewrite filter_app. cbn [filter]. rewrite String.eqb_refl. cbn [negb].
    rewrite (filter_not_in _ _ Hb), (filter_not_in _ _ Ha). reflexivity.
  - intros Hn. destruct s as [l sel b].
    unfold LinkClientBrandingDialog.handleRemoveClient. cbn in *.
    rewrite (filter_not_in _ _ Hn). reflexivity.
Qed.

Lemma add_and_remove_client_witness :
  let s := LinkClientBrandingDialog.mkState ["1"; "3"] "2" [] in
  let t := LinkClientBrandingDialog.mkState ["4"; "1"; "3"; "2"] "" [] in
  LinkClientBrandingDialog.linkedClients
    (LinkClientBrandingDialog.handleAddClient s) = ["1"; "3"; "2"]
  /\ LinkClientBrandingDialog.linkedClients
       (LinkClientBrandingDialog.handleRemoveClient "2"
          (LinkClientBrandingDialog.handleAddClient s)) = ["1"; "3"]
  /\ LinkClientBrandingDialog.linkedClients
       (LinkClientBrandingDialog.handleRemoveClient "1" t) = ["4"; "3"; "2"].
Proof.
  intros s t.
  destruct (add_and_remove_client s "2") as (Hadd & _).
  destruct (add_and_remove_client t "1") as (_ & _ & _ & _ & Hord & _).
  destruct Hadd as [Ha Hr].
  - discriminate.
  - cbn. intros [H|[H|[]]]; discriminate.
  - split; [rewrite Ha; reflexivity|]. split; [exact Hr|].
    rewrite (Hord ["4"] ["3"; "2"]); [reflexivity | reflexivity | |].
    + cbn. intros [H|[]]; discriminate.
    + cbn. intros [H|[H|[]]]; discriminate.
Defined.

Lemma dialog_step_invariant (s s' : LinkClientBrandingDialog.State)
    (ev : LinkClientBrandingDialog.Event) :
  LinkClientBrandingDialog.step s ev = Some s' ->
  NoDup (LinkClientBrandingDialog.linkedClients s)
  /\ incl (LinkClientBrandingDialog.linkedClients s)
       (map fst LinkClientBrandingDialog.mockClients)
  /\ (LinkClientBrandingDialog.selectedClient s = ""
      \/ In (LinkClientBrandingDialog.selectedClient s)
           (map fst LinkClientBrandingDialog.mockClients))
  /\ map fst (LinkClientBrandingDialog.brandingSettings s)
     = LinkClientBrandingDialog.branding_keys ->
  NoDup (LinkClientBrandingDialog.linkedClients s')
  /\ incl (LinkClientBrandingDialog.linkedClients s')
       (map fst LinkClientBrandingDialog.mockClients)
  /\ (LinkClientBrandingDialog.selectedClient s' = ""
      \/ In (LinkClientBrandingDialog.selectedClient s')
           (map fst LinkClientBrandingDialog.mockClients))
  /\ map fst (LinkClientBrandingDialog.brandingSettings s')
     = LinkClientBrandingDialog.branding_keys.
Proof.
  intros Hstep (Hnd & Hincl & Hsel & Hkeys).
  unfold LinkClientBrandingDialog.step in Hstep.
  destruct (LinkClientBrandingDialog.available s ev) eqn:Hav; [|discriminate].
  cbn [negb] in Hstep. destruct ev; injection Hstep as <-.
  - cbn [LinkClientBrandingDialog.available] in Hav.
    apply includes_In in Hav.
    cbn [LinkClientBrandingDialog.linkedClients
           LinkClientBrandingDialog.selectedClient
           LinkClientBrandingDialog.brandingSettings].
    repeat split; auto.
  - unfold LinkClientBrandingDialog.handleAddClient.
    destruct (negb _ && negb _) eqn:E; [|repeat split; auto].
    apply andb_prop in E. destruct E as [Hne Hfresh].
    apply negb_true_iff in Hne, Hfresh. apply String.eqb_neq in Hne.
    assert (Hnot : ~ In (LinkClientBrandingDialog.selectedClient s)
                     (LinkClientBrandingDialog.linkedClients s)).
    { intros H. apply includes_In in H. congruence. }
    destruct Hsel as [Hsel|Hsel]; [contradiction|].
    cbn [LinkClientBrandingDialog.linkedClients
           LinkClientBrandingDialog.selectedClient
           LinkClientBrandingDialog.brandingSettings].
    split; [|split; [|split; [left; reflexivity | exact Hkeys]]].
    + apply NoDup_app; [exact Hnd | repeat constructor; intros [] |].
      intros x Hx [<-|[]]. contradiction.
    + apply incl_app; [exact Hincl|]. intros x [<-|[]]. exact Hsel.
  - cbn [LinkClientBrandingDialog.handleRemoveClient
           LinkClientBrandingDialog.linkedClients
           LinkClientBrandingDialog.selectedClient
           LinkClientBrandingDialog.brandingSettings].
    split; [apply NoDup_filter; exact Hnd|].
    split; [|split; assumption].
    intros x Hx. apply filter_In in Hx. apply Hincl, Hx.
  - cbn [LinkClientBrandingDialog.available] in Hav.
    cbn [LinkClientBrandingDialog.handleBrandingChange
           LinkClientBrandingDialog.linkedClients
           LinkClientBrandingDialog.selectedClient
           LinkClientBrandingDialog.brandingSettings].
    repeat split; auto.
    rewrite set_key_keys_present; [exact Hkeys | rewrite Hkeys; exact Hav].
Qed.

(** X21: in every state the dialog reaches through its controls, no
    client is linked twice, every linked client is one of the clients the
    select offers (so at most four are linked and none is the empty id), and
    the branding settings consist of their five keys, in their first
    order. *)
Theorem linkedClients_invariant (s : LinkClientBrandingDialog.State) :
  LinkClientBrandingDialog.reachable s ->
  NoDup (LinkClientBrandingDialog.linkedClients s)
  /\ incl (LinkClientBrandingDialog.linkedClients s)
       (map fst LinkClientBrandingDialog.mockClients)
  /\ (List.length (LinkClientBrandingDialog.linkedClients s) <= 4)%nat
  /\ ~ In "" (LinkClientBrandingDialog.linkedClients s)
  /\ map fst (LinkClientBrandingDialog.brandingSettings s)
     = LinkClientBrandingDialog.branding_keys.
Proof.
  intros Hreach.
  assert (Hinv :
    NoDup (LinkClientBrandingDialog.linkedClients s)
    /\ incl (LinkClientBrandingDialog.linkedClients s)
         (map fst LinkClientBrandingDialog.mockClients)
    /\ (LinkClientBrandingDialog.selectedClient s = ""
        \/ In (LinkClientBrandingDialog.selectedClient s)
             (map fst LinkClientBrandingDialog.mockClients))
    /\ map fst (LinkClientBrandingDialog.brandingSettings s)
       = LinkClientBrandingDialog.branding_keys).
  { induction Hreach as [|s ev s' _ IH Hstep].
    - cbn. repeat split; auto; [constructor | intros x []].
    - exact (dialog_step_invariant s s' ev Hstep IH). }
  destruct Hinv as (Hnd & Hincl & _ & Hkeys).
  split; [exact Hnd|]. split; [exact Hincl|]. split; [|split; [|exact Hkeys]].
  - apply (NoDup_incl_length Hnd) in Hincl. exact Hincl.
  - intros H. apply Hincl in H. cbn in H.
    destruct H as [H|[H|[H|[H|[]]]]]; discriminate.
Qed.

Lemma linkedClients_invariant_witness :
  let s := LinkClientBrandingDialog.mkState ["2"] ""
             [ ("logo", ""); ("primaryColor", "#000000");
               ("secondaryColor", "#7e3af2"); ("fontFamily", "Inter");
               ("customDomain", "") ] in
  (List.length (LinkClientBrandingDialog.linkedClients s) <= 4)%nat
  /\ LinkClientBrandingDialog.step s (LinkClientBrandingDialog.ClickAdd)
     = None.
Proof.
  intros s. split; [|reflexivity].
  destruct (linkedClients_invariant s) as (_ & _ & Hlen & _); [|exact Hlen].
  apply (LinkClientBrandingDialog.reach_step
           (LinkClientBrandingDialog.mkState ["2"] ""
              LinkClientBrandingDialog.initial_state.(LinkClientBrandingDialog.brandingSettings))
           (LinkClientBrandingDialog.ChangeBranding "primaryColor" "#000000"));
    [|reflexivity].
  apply (LinkClientBrandingDialog.reach_step
           (LinkClientBrandingDialog.mkState [] "2"
              LinkClientBrandingDialog.initial_state.(LinkClientBrandingDialog.brandingSettings))
           LinkClientBrandingDialog.ClickAdd); [|reflexivity].
  apply (LinkClientBrandingDialog.reach_step
           LinkClientBrandingDialog.initial_state
           (LinkClientBrandingDialog.SelectClient "2")); [|reflexivity].
  apply LinkClientBrandingDialog.reach_initial.
Defined.

Lemma handleFileChange_preview_last (p : BrandingImageUpload.Props)
    (e : BrandingImageUpload.Env) (f : File) (rest : list File)
    (res : BrandingImageUpload.UploadResult) (s : BrandingImageUpload.State) :
  prefix "image/" (File.type f) = true ->
  (File.size f <= BrandingImageUpload.max_size)%N ->
  let out := BrandingImageUpload.handleFileChange p e (f :: rest) res s in
  BrandingImageUpload.changes (snd (fst out)) <> []
  /\ BrandingImageUpload.preview (fst (fst out))
     = Some (last (BrandingImageUpload.changes (snd (fst out))) "").
Proof.
  intros Himg Hsize. cbv zeta.
  unfold BrandingImageUpload.handleFileChange. rewrite Himg.
  apply N.ltb_ge in Hsize. rewrite Hsize. cbn [negb].
  unfold BrandingImageUpload.fallback.
  destruct res; repeat (destruct (BrandingImageUpload.onChange p _));
    split; (reflexivity || discriminate).
Qed.

Lemma handleClearImage_changes (p : BrandingImageUpload.Props)
    (e : BrandingImageUpload.Env) (s : BrandingImageUpload.State) :
  BrandingImageUpload.changes
    (snd (fst (BrandingImageUpload.handleClearImage p e s))) = [""]
  /\ BrandingImageUpload.preview
       (fst (fst (BrandingImageUpload.handleClearImage p e s))) = None.
Proof.
  unfold BrandingImageUpload.handleClearImage.
  destruct (BrandingImageUpload.removal_path e s),
    (BrandingImageUpload.onChange p ""); split; reflexivity.
Qed.

(** X24: with the logo upload wired into the dialog as the source wires
    it, the "logo" setting follows the preview: after an accepted image the
    setting reads the URL the preview shows (the public URL, or the local
    object URL when the storage failed or [onChange] had to be called a
    second time), after a removal it reads the empty string; the upload
    never touches the linked clients or the other settings. *)
Theorem logo_setting_follows_preview (p : BrandingImageUpload.Props)
    (e : BrandingImageUpload.Env) (f : File)
    (res : BrandingImageUpload.UploadResult) (s : BrandingImageUpload.State)
    (d : LinkClientBrandingDialog.State) :
  prefix "image/" (File.type f) = true ->
  (File.size f <= BrandingImageUpload.max_size)%N ->
  let up := BrandingImageUpload.handleFileChange p e [f] res s in
  let d1 := set_logo_each (BrandingImageUpload.changes (snd (fst up))) d in
  let rm := BrandingImageUpload.handleClearImage p e (fst (fst up)) in
  let d2 := set_logo_each (BrandingImageUpload.changes (snd (fst rm))) d1 in
  LinkClientBrandingDialog.get_key "logo"
    (LinkClientBrandingDialog.brandingSettings d1)
  = BrandingImageUpload.preview (fst (fst up))
  /\ LinkClientBrandingDialog.get_key "logo"
       (LinkClientBrandingDialog.brandingSettings d2) = Some ""
  /\ BrandingImageUpload.preview (fst (fst rm)) = None
  /\ LinkClientBrandingDialog.linkedClients d2
     = LinkClientBrandingDialog.linkedClients d
  /\ (forall other, other <> "logo" ->
        LinkClientBrandingDialog.get_key other
          (LinkClientBrandingDialog.brandingSettings d2)
        = LinkClientBrandingDialog.get_key other
            (LinkClientBrandingDialog.brandingSettings d)).
Proof.
  intros Himg Hsize. cbv zeta.
  assert (Hfold : forall urls d0,
            LinkClientBrandingDialog.linkedClients (set_logo_each urls d0)
            = LinkClientBrandingDialog.linkedClients d0
            /\ (forall other, other <> "logo" ->
                  LinkClientBrandingDialog.get_key other
                    (LinkClientBrandingDialog.brandingSettings
                       (set_logo_each urls d0))
                  = LinkClientBrandingDialog.get_key other
                      (LinkClientBrandingDialog.brandingSettings d0))
            /\ (urls <> [] ->
                LinkClientBrandingDialog.get_key "logo"
                  (LinkClientBrandingDialog.brandingSettings
                     (set_logo_each urls d0))
                = Some (last urls ""))).
  { induction urls as [|u urls IH]; intros d0.
    - repeat split. congruence.
    - change (set_logo_each (u :: urls) d0)
        with (set_logo_each urls
                (LinkClientBrandingDialog.handleBrandingChange "logo" u d0)).
      destruct (IH (LinkClientBrandingDialog.handleBrandingChange "logo" u d0))
        as (Hl & Ho & Hg).
      split; [rewrite Hl; reflexivity|]. split.
      + intros other Hne. rewrite (Ho other Hne). cbn.
        apply set_key_get_other. exact Hne.
      + intros _. destruct urls as [|u' urls'].
        * cbn. apply set_key_get.
        * rewrite Hg by discriminate. reflexivity. }
  pose proof (handleFileChange_preview_last p e f [] res s Himg Hsize) as Hup.
  cbv zeta in Hup. destruct Hup as (Hne & Hprev).
  pose proof (handleClearImage_changes p e
                (fst (fst (BrandingImageUpload.handleFileChange p e [f] res s))))
    as [Hch Hnone].
  rewrite Hch.
  destruct (Hfold (BrandingImageUpload.changes
                     (snd (fst (BrandingImageUpload.handleFileChange
                                  p e [f] res s)))) d) as (Hl1 & Ho1 & Hg1).
  destruct (Hfold [""] (set_logo_each
                          (BrandingImageUpload.changes
                             (snd (fst (BrandingImageUpload.handleFileChange
                                          p e [f] res s)))) d))
    as (Hl2 & Ho2 & Hg2).
  split; [rewrite Hg1 by exact Hne; symmetry; exact Hprev|].
  split; [apply Hg2; discriminate|]. split; [exact Hnone|].
  split; [rewrite Hl2; exact Hl1|].
  intros other Hother. rewrite (Ho2 other Hother). apply Ho1. exact Hother.
Qed.

Lemma logo_setting_follows_preview_witness :
  let p := BrandingImageUpload.mkProps (fun _ => Returns) None in
  let e := BrandingImageUpload.mkEnv None 17 (fun x => x) (fun _ => "blob:1")
             (fun _ => None) in
  let s := BrandingImageUpload.mkState None false in
  let png := File.mk "wall.png" 4096 "image/png" in
  let up := BrandingImageUpload.handleFileChange p e [png]
              BrandingImageUpload.Failed s in
  LinkClientBrandingDialog.get_key "logo"
    (LinkClientBrandingDialog.brandingSettings
       (set_logo_each (BrandingImageUpload.changes (snd (fst up)))
          LinkClientBrandingDialog.initial_state))
  = Some "blob:1".
Proof.
  intros p e s png up.
  pose proof (logo_setting_follows_preview p e png BrandingImageUpload.Failed s
                LinkClientBrandingDialog.initial_state) as H.
  cbv zeta in H.
  destruct H as (Hlogo & _);
    [reflexivity | unfold BrandingImageUpload.max_size; cbn; lia |].
  unfold up. rewrite Hlogo. reflexivity.
Defined.

(** * The uploader while a transfer runs *)

Lemma step_keeps_notes (w w' : World) (ev : Event) :
  step w ev = Some w' ->
  (forall v, ev <> TypeNotes v) ->
  (forall v, ev <> NewInitialNotes v) ->
  notes (live w') = notes (live w).
Proof.
  intros Hstep Htype Hinit. unfold step in Hstep.
  destruct (available (render w) ev); [|discriminate].
  cbn [negb] in Hstep.
  destruct ev;
    try (injection Hstep as <-; reflexivity).
  - injection Hstep as <-. unfold exec, handleFileInputChange.
    pose proof (add_validated_spec (render w) target_files (live w)) as Hs.
    destruct (add_validated (render w) target_files (live w)) as [[u s] es].
    unfold state_of in Hs. cbn in Hs. subst s. reflexivity.
  - injection Hstep as <-. unfold exec, handleDrop.
    pose proof (add_validated_spec (render w) dataTransfer_files (live w))
      as Hs.
    destruct (add_validated (render w) dataTransfer_files (live w))
      as [[u s] es].
    unfold state_of in Hs. cbn in Hs. subst s. reflexivity.
  - destruct (nth_error dropbox_listing entry); [|discriminate].
    injection Hstep as <-. reflexivity.
  - destruct (nth_error google_listing entry); [|discriminate].
    injection Hstep as <-. reflexivity.
  - exfalso. exact (Htype value eq_refl).
  - pose proof (handleSaveNotes_call_state (render w) (live w)) as Hs.
    destruct (handleSaveNotes_call (render w) (live w)) as [[called s] es].
    unfold state_of in Hs. cbn in Hs. subst s.
    injection Hstep as <-. reflexivity.
  - destruct (saves w); [discriminate|]. injection Hstep as <-.
    destruct o; reflexivity.
  - pose proof (handleUpload_begin_keeps (render w) (live w)) as Hk.
    cbv zeta in Hk. destruct Hk as (_ & _ & Hn & _).
    destruct (handleUpload_begin (render w) (live w)) as [[sent s] es].
    injection Hstep as <-. exact Hn.
  - destruct (nth_error (inflight w) session); [|discriminate].
    injection Hstep as <-. reflexivity.
  - destruct (nth_error (inflight w) session) as [r|]; [|discriminate].
    injection Hstep as <-. unfold exec. cbn [live].
    pose proof (handleUpload_settled_keeps r o (live w)) as Hk.
    cbv zeta in Hk. destruct Hk as (_ & Hn & _).
    destruct (handleUpload_settled r o (live w)) as [[u s] es].
    exact Hn.
  - exfalso. exact (Hinit v eq_refl).
Qed.

(** X15: while the uploading flag is true the page refuses to edit the
    note, to remove a file, to clear or cancel the queue and to start
    another transfer, and no event other than a new initial note text from
    the caller changes the note text; "Select All" of a remote listing and
    the admission of further files stay possible. *)
Theorem frozen_while_uploading (w : World) :
  uploading (live w) = true ->
  (forall value, step w (TypeNotes value) = None)
  /\ (forall index, step w (ClickRemove index) = None)
  /\ step w ClickClearAll = None
  /\ step w ClickCancel = None
  /\ step w ClickUpload = None
  /\ (forall ev w', step w ev = Some w' ->
        (forall v, ev <> NewInitialNotes v) ->
        notes (live w') = notes (live w))
  /\ (uploadMethod (live w) <> local ->
      exists w', step w ClickSelectAll = Some w' /\ files (live w') = [])
  /\ (uploadMethod (live w) = local ->
      forall fl, exists w', step w (DropFiles fl) = Some w').
Proof.
  intros Hup.
  assert (Hrefuse : forall ev,
            available (render w) ev = false -> step w ev = None).
  { intros ev Hav. unfold step. rewrite Hav. reflexivity. }
  split; [intros v; apply Hrefuse; cbn; rewrite Hup; reflexivity|].
  split; [intros i; apply Hrefuse; cbn; rewrite Hup;
          rewrite !andb_false_r; reflexivity|].
  split; [apply Hrefuse; cbn; rewrite Hup; apply andb_false_r|].
  split; [apply Hrefuse; cbn; rewrite Hup; reflexivity|].
  split; [apply Hrefuse; cbn; rewrite Hup; reflexivity|].
  split; [|split].
  - intros ev w' Hstep Hinit. apply (step_keeps_notes w w' ev Hstep); [|exact Hinit].
    intros v ->. unfold step in Hstep. cbn in Hstep. rewrite Hup in Hstep.
    discriminate.
  - intros Hm. unfold step. cbn.
    destruct (uploadMethod (live w)); [congruence | | ]; cbn;
      eexists; split; reflexivity.
  - intros Hm fl. eexists. apply step_DropFiles. exact Hm.
Qed.

Lemma frozen_while_uploading_witness :
  let w := mkWorld photographer_props photographer_env
             (mkState raw [front_jpg] true (Fin 40) "as sent" false dropbox)
             [mkRender photographer_props photographer_env
                (mkState raw [front_jpg] false (Fin 0) "as sent" false local)]
             0 [] in
  step w (TypeNotes "changed") = None
  /\ step w (ClickRemove 0) = None
  /\ exists w', step w ClickSelectAll = Some w' /\ files (live w') = [].
Proof.
  intros w.
  destruct (frozen_while_uploading w)
    as (Htype & Hremove & _ & _ & _ & _ & Hall & _); [reflexivity|].
  split; [apply Htype|]. split; [apply Hremove|].
  apply Hall. discriminate.
Defined.
